(** * ComfyUI-Bagel: the node functions of [nodes.py], embedded and verified

    The repository is a set of host-plugin node classes.  Every node function
    is straight-line Python: it calls imported libraries ([random], [numpy],
    [torch], [accelerate], the BAGEL [modeling] and [inferencer] packages),
    builds keyword dictionaries and subscripts the result.  The embedding
    below keeps that shape:

    - Python values are an inductive type [value]; string-keyed dicts are
      [gmap string value];
    - a node function is a program [prog value]: a tree whose nodes are the
      calls into imported libraries, in source order, and whose leaves are
      [return] and [raise];
    - a [handler] gives the libraries a meaning; [run] executes a program
      against a handler and records every library call with its answer.

    Properties that hold "for every call" are proved for every handler. *)

From Stdlib Require Import ZArith String Ascii Floats.PrimFloat.
From stdpp Require Import gmap strings list fin_maps.

Set Warnings "-register-all,-inexact-float".
Open Scope string_scope.
Open Scope Z_scope.

(** ** Python values *)

Module Py.

Inductive value : Type :=
| VNone
| VBool (b : bool)
| VInt (z : Z)
| VFloat (f : float)
| VStr (s : string)
| VList (l : list value)
| VTuple (l : list value)
| VDict (d : gmap string value)          (* dict with str keys *)
| VIntDict (d : gmap Z value)            (* dict with int keys *)
| VObject (cls : string) (attrs : gmap string value).

Inductive exn : Type :=
| KeyError (key : string)
| TypeError (msg : string)
| ValueError (msg : string)
| AttributeError (name : string)
| FileNotFoundError (path : string)
| JSONDecodeError (path : string)
| RuntimeError (msg : string).

(** What a library call answers: a value, or a raised exception. *)
Definition response : Type := exn + value.

(** The points where a node function leaves this repository.  Objects made
    by a library are handles: reading or writing their attributes and calling
    their methods are library effects too. *)
Inductive effect : Type :=
| ECall (fn : string) (args : list value) (kwargs : gmap string value)
| EMethod (self : value) (name : string) (args : list value)
          (kwargs : gmap string value)
| EGetAttr (obj : value) (name : string)
| ESetAttr (obj : value) (name : string) (v : value)
| ESetGlobal (target : string) (v : value)
| EPrint (v : value).

(** Programs: [Vis ef k] performs [ef] and continues with [k] on its answer. *)
Inductive prog (A : Type) : Type :=
| Ret (a : A)
| Throw (e : exn)
| Vis (ef : effect) (k : response -> prog A).
Arguments Ret {A} a.
Arguments Throw {A} e.
Arguments Vis {A} ef k.

Fixpoint bind {A B} (m : prog A) (f : A -> prog B) : prog B :=
  match m with
  | Ret a => f a
  | Throw e => Throw e
  | Vis ef k => Vis ef (fun r => bind (k r) f)
  end.

#[global] Instance prog_ret : MRet prog := @Ret.
#[global] Instance prog_bind : MBind prog := fun A B f m => bind m f.

(** An exception raised by the library propagates: nothing in [nodes.py]
    catches one. *)
Definition perform (ef : effect) : prog value :=
  Vis ef (fun r => match r with inl e => Throw e | inr v => Ret v end).

Definition call (fn : string) (args : list value) (kwargs : gmap string value)
  : prog value := perform (ECall fn args kwargs).

Definition method (self : value) (name : string) (args : list value)
  (kwargs : gmap string value) : prog value :=
  perform (EMethod self name args kwargs).

Definition getattr (obj : value) (name : string) : prog value :=
  perform (EGetAttr obj name).

Definition setattr (obj : value) (name : string) (v : value) : prog value :=
  perform (ESetAttr obj name v).

Definition assign (target : string) (v : value) : prog value :=
  perform (ESetGlobal target v).

Definition print (v : value) : prog value := perform (EPrint v).

(** [with cm: body]: the exit runs on every way out of the body. *)
Fixpoint finally {A} (body : prog A) (cleanup : prog value) : prog A :=
  match body with
  | Ret a => bind cleanup (fun _ => Ret a)
  | Throw e => bind cleanup (fun _ => Throw e)
  | Vis ef k => Vis ef (fun r => finally (k r) cleanup)
  end.

Definition with_ {A} (cm : string) (body : prog A) : prog A :=
  bind (call cm [] ∅) (fun ctx =>
  bind (call (cm ++ ".__enter__") [ctx] ∅) (fun _ =>
  finally body (call (cm ++ ".__exit__") [ctx] ∅))).

(** *** Operations of the language itself *)

(** [bool(v)] *)
Definition truthy (v : value) : bool :=
  match v with
  | VNone => false
  | VBool b => b
  | VInt z => negb (z =? 0)
  | VFloat f => negb (PrimFloat.eqb f 0%float)
  | VStr s => negb (String.eqb s "")
  | VList l | VTuple l => negb (Nat.eqb (length l) 0)
  | VDict d => negb (Nat.eqb (size d) 0)
  | VIntDict d => negb (Nat.eqb (size d) 0)
  | VObject _ _ => true
  end.

(** [d[key]] *)
Definition subscript (d : value) (key : string) : prog value :=
  match d with
  | VDict m =>
      match m !! key with
      | Some v => Ret v
      | None => Throw (KeyError key)
      end
  | _ => Throw (TypeError "object is not subscriptable")
  end.

(** [v - 1] *)
Definition minus_one (v : value) : prog value :=
  match v with
  | VInt z => Ret (VInt (z - 1))
  | VBool b => Ret (VInt (Z.b2z b - 1))
  | VFloat f => Ret (VFloat (f - 1)%float)
  | _ => Throw (TypeError "unsupported operand type(s) for -")
  end.

(** [v == 1] *)
Definition eq_one (v : value) : bool :=
  match v with
  | VInt z => z =? 1
  | VBool b => b
  | VFloat f => PrimFloat.eqb f 1%float
  | _ => false
  end.

(** [a, b = v] and [a, b, c = v] *)
Definition unpack2 (v : value) : prog (value * value) :=
  match v with
  | VTuple [a; b] | VList [a; b] => Ret (a, b)
  | VTuple _ | VList _ => Throw (ValueError "wrong number of values to unpack")
  | _ => Throw (TypeError "cannot unpack non-iterable object")
  end.

Definition unpack3 (v : value) : prog (value * value * value) :=
  match v with
  | VTuple [a; b; c] | VList [a; b; c] => Ret (a, b, c)
  | VTuple _ | VList _ => Throw (ValueError "wrong number of values to unpack")
  | _ => Throw (TypeError "cannot unpack non-iterable object")
  end.

(** [os.path.join(a, b)] for a relative POSIX component [b]. *)
Definition ends_with_slash (s : string) : bool :=
  match rev (list_ascii_of_string s) with
  | c :: _ => Ascii.eqb c "/"%char
  | [] => false
  end.

Definition path_join (a : string) (b : string) : string :=
  if String.eqb a "" then b
  else if ends_with_slash a then a ++ b
  else a ++ "/" ++ b.

Definition os_path_join (a : value) (b : string) : prog value :=
  match a with
  | VStr s => Ret (VStr (path_join s b))
  | _ => Throw (TypeError "expected str, bytes or os.PathLike object")
  end.

(** ** Running a program against the libraries *)

Definition handler (S : Type) : Type := effect -> S -> response * S.

Definition trace : Type := list (effect * response).

Record outcome (S A : Type) : Type := Outcome {
  result : exn + A;
  final : S;
  events : trace;
}.
Arguments Outcome {S A} _ _ _.
Arguments result {S A} _.
Arguments final {S A} _.
Arguments events {S A} _.

Definition logged {S A} (x : effect * response) (o : outcome S A) : outcome S A :=
  Outcome (result o) (final o) (x :: events o).

Fixpoint run {S A} (h : handler S) (p : prog A) (s : S) : outcome S A :=
  match p with
  | Ret a => Outcome (inr a) s []
  | Throw e => Outcome (inl e) s []
  | Vis ef k =>
      let '(r, s') := h ef s in
      logged (ef, r) (run h (k r) s')
  end.

(** A postcondition on (events, result) that holds whatever the libraries
    answer and whatever state they keep. *)
Definition ensures {A} (Φ : trace -> exn + A -> Prop) (p : prog A) : Prop :=
  forall (S : Type) (h : handler S) (s : S),
    Φ (events (run h p s)) (result (run h p s)).

(** Two runs that cannot be told apart: same calls with the same answers and
    the same result, and the same library state after a return. *)
Definition same_observation {S A} (o1 o2 : outcome S A) : Prop :=
  events o1 = events o2
  ∧ result o1 = result o2
  ∧ (forall a, result o1 = inr a -> final o1 = final o2).

End Py.
Export Py.

(** ** The seeding preamble

    [nodes.py] lines 302-309; the same eight statements are repeated verbatim
    at 448-455, 597-604, 743-750 and 807-814. *)

Definition seed_preamble (seed : value) : prog value :=
  _ ← call "random.seed" [seed] ∅;
  _ ← call "np.random.seed" [seed] ∅;
  _ ← call "torch.manual_seed" [seed] ∅;
  available ← call "torch.cuda.is_available" [] ∅;
  _ ← (if truthy available then
         _ ← call "torch.cuda.manual_seed" [seed] ∅;
         call "torch.cuda.manual_seed_all" [seed] ∅
       else Ret VNone);
  _ ← assign "torch.backends.cudnn.deterministic" (VBool true);
  assign "torch.backends.cudnn.benchmark" (VBool false).

(** [InterleaveInferencer(model=..., ...)], written out the same way in all
    five dispatch functions, and the call of the inferencer object with
    keyword arguments. *)
Definition InterleaveInferencer
  (model vae_model tokenizer vae_transform vit_transform new_token_ids : value)
  : prog value :=
  call "InterleaveInferencer" []
    {[ "model" := model; "vae_model" := vae_model; "tokenizer" := tokenizer;
       "vae_transform" := vae_transform; "vit_transform" := vit_transform;
       "new_token_ids" := new_token_ids ]}.

Definition invoke (inferencer : value) (kwargs : gmap string value) : prog value :=
  method inferencer "__call__" [] kwargs.

(** ** Parameter capture nodes *)

Module BagelPrompt.
Definition INPUT_TYPES : list string := ["text"].
Definition RETURN_TYPES : list string := ["PROMPT"].
Definition FUNCTION : string := "input_text".
Definition parameters : list string := ["text"].

Definition input_text (text : value) : prog value :=
  let prompt := text in
  Ret (VTuple [prompt]).
End BagelPrompt.

Module LoadEditImage.
Definition INPUT_TYPES : list string := ["image_path"].
Definition RETURN_TYPES : list string := ["IMAGE"].
Definition FUNCTION : string := "input_image".
Definition parameters : list string := ["image_path"].

Definition input_image (image_path : value) : prog value :=
  let image := image_path in
  Ret (VTuple [image]).
End LoadEditImage.

(** ** Inference dispatch nodes *)

Definition handles : list string :=
  ["model"; "vae_model"; "tokenizer"; "vae_transform"; "vit_transform";
   "new_token_ids"].

Module ImageGeneration.
Definition INPUT_TYPES : list string :=
  handles ++
  ["prompt"; "seed"; "image_ratio"; "cfg_text_scale"; "cfg_img_scale";
   "cfg_interval"; "timestep_shift"; "num_timesteps"; "cfg_renorm_min";
   "cfg_renorm_type"; "text_temperature"].
Definition RETURN_TYPES : list string := ["IMAGE"].
Definition FUNCTION : string := "generate".
Definition parameters : list string :=
  handles ++
  ["prompt"; "image_ratio"; "seed"; "cfg_text_scale"; "cfg_img_scale";
   "cfg_interval"; "timestep_shift"; "num_timesteps"; "cfg_renorm_min";
   "cfg_renorm_type"; "text_temperature"].

Definition generate
  (model vae_model tokenizer vae_transform vit_transform new_token_ids
   prompt image_ratio seed cfg_text_scale cfg_img_scale cfg_interval
   timestep_shift num_timesteps cfg_renorm_min cfg_renorm_type
   text_temperature : value) : prog value :=
  inferencer ← InterleaveInferencer model vae_model tokenizer vae_transform
                 vit_transform new_token_ids;
  _ ← seed_preamble seed;
  let inference_hyper : gmap string value :=
    {[ "cfg_text_scale" := cfg_text_scale;
       "cfg_img_scale" := cfg_img_scale;
       "cfg_interval" := VList [VFloat 0.4%float; VFloat 1.0];
       "timestep_shift" := timestep_shift;
       "num_timesteps" := num_timesteps;
       "cfg_renorm_min" := cfg_renorm_min;
       "cfg_renorm_type" := cfg_renorm_type ]} in
  output_dict ← invoke inferencer (<["text" := prompt]> inference_hyper);
  image ← subscript output_dict "image";
  Ret (VTuple [image]).
End ImageGeneration.

Module ImageThinkGeneration.
Definition INPUT_TYPES : list string :=
  handles ++
  ["prompt"; "max_think_token_n"; "seed"; "image_ratio"; "cfg_text_scale";
   "cfg_img_scale"; "cfg_interval"; "timestep_shift"; "num_timesteps";
   "cfg_renorm_min"; "cfg_renorm_type"; "text_temperature"].
Definition RETURN_TYPES : list string := ["IMAGE"; "TEXT"].
Definition FUNCTION : string := "generate".
Definition parameters : list string :=
  handles ++
  ["prompt"; "seed"; "max_think_token_n"; "cfg_text_scale"; "cfg_img_scale";
   "timestep_shift"; "num_timesteps"; "cfg_renorm_min"; "cfg_interval";
   "cfg_renorm_type"; "text_temperature"].

Definition generate
  (model vae_model tokenizer vae_transform vit_transform new_token_ids
   prompt seed max_think_token_n cfg_text_scale cfg_img_scale
   timestep_shift num_timesteps cfg_renorm_min cfg_interval
   cfg_renorm_type text_temperature : value) : prog value :=
  inferencer ← InterleaveInferencer model vae_model tokenizer vae_transform
                 vit_transform new_token_ids;
  _ ← seed_preamble seed;
  let inference_hyper : gmap string value :=
    {[ "max_think_token_n" := max_think_token_n;
       "do_sample" := VBool false;
       "cfg_text_scale" := cfg_text_scale;
       "cfg_img_scale" := cfg_img_scale;
       "cfg_interval" := VList [VFloat 0.4%float; VFloat 1.0];
       "timestep_shift" := timestep_shift;
       "num_timesteps" := num_timesteps;
       "cfg_renorm_min" := cfg_renorm_min;
       "cfg_renorm_type" := VStr "global" ]} in
  output_dict ← invoke inferencer
                  (<["text" := prompt]> (<["think" := VBool true]> inference_hyper));
  image ← subscript output_dict "image";
  text ← subscript output_dict "text";
  Ret (VTuple [image; text]).
End ImageThinkGeneration.

Module ImageEditing.
Definition INPUT_TYPES : list string :=
  handles ++
  ["prompt"; "image"; "seed"; "image_ratio"; "cfg_text_scale";
   "cfg_img_scale"; "cfg_interval"; "timestep_shift"; "num_timesteps";
   "cfg_renorm_min"; "cfg_renorm_type"; "text_temperature"].
Definition RETURN_TYPES : list string := ["IMAGE"].
Definition FUNCTION : string := "editing".
Definition parameters : list string :=
  handles ++
  ["prompt"; "image"; "seed"; "cfg_text_scale"; "cfg_img_scale";
   "timestep_shift"; "num_timesteps"; "cfg_renorm_min"].

Definition editing
  (model vae_model tokenizer vae_transform vit_transform new_token_ids
   prompt image seed cfg_text_scale cfg_img_scale timestep_shift
   num_timesteps cfg_renorm_min : value) : prog value :=
  inferencer ← InterleaveInferencer model vae_model tokenizer vae_transform
                 vit_transform new_token_ids;
  _ ← seed_preamble seed;
  let inference_hyper : gmap string value :=
    {[ "cfg_text_scale" := cfg_text_scale;
       "cfg_img_scale" := cfg_img_scale;
       "cfg_interval" := VList [VFloat 0.0; VFloat 1.0];
       "timestep_shift" := timestep_shift;
       "num_timesteps" := num_timesteps;
       "cfg_renorm_min" := cfg_renorm_min;
       "cfg_renorm_type" := VStr "text_channel" ]} in
  output_dict ← invoke inferencer
                  (<["image" := image]> (<["text" := prompt]> inference_hyper));
  image ← subscript output_dict "image";
  Ret (VTuple [image]).
End ImageEditing.

Module ImageThinkEditing.
Definition INPUT_TYPES : list string :=
  handles ++
  ["prompt"; "image"; "max_think_token_n"; "seed"; "image_ratio";
   "cfg_text_scale"; "cfg_img_scale"; "cfg_interval"; "timestep_shift";
   "num_timesteps"; "cfg_renorm_min"; "cfg_renorm_type"; "text_temperature"].
Definition RETURN_TYPES : list string := ["IMAGE"; "TEXT"].
Definition FUNCTION : string := "editing".
Definition parameters : list string :=
  handles ++
  ["prompt"; "image"; "seed"; "max_think_token_n"; "cfg_text_scale";
   "cfg_img_scale"; "timestep_shift"; "num_timesteps"; "cfg_renorm_min"].

Definition editing
  (model vae_model tokenizer vae_transform vit_transform new_token_ids
   prompt image seed max_think_token_n cfg_text_scale cfg_img_scale
   timestep_shift num_timesteps cfg_renorm_min : value) : prog value :=
  inferencer ← InterleaveInferencer model vae_model tokenizer vae_transform
                 vit_transform new_token_ids;
  _ ← seed_preamble seed;
  let inference_hyper : gmap string value :=
    {[ "max_think_token_n" := max_think_token_n;
       "do_sample" := VBool false;
       "cfg_text_scale" := cfg_text_scale;
       "cfg_img_scale" := cfg_img_scale;
       "cfg_interval" := VList [VFloat 0.0; VFloat 1.0];
       "timestep_shift" := timestep_shift;
       "num_timesteps" := num_timesteps;
       "cfg_renorm_min" := cfg_renorm_min;
       "cfg_renorm_type" := VStr "text_channel" ]} in
  output_dict ← invoke inferencer
                  (<["image" := image]> (<["text" := prompt]>
                     (<["think" := VBool true]> inference_hyper)));
  image ← subscript output_dict "image";
  text ← subscript output_dict "text";
  Ret (VTuple [image; text]).
End ImageThinkEditing.

Module ImageUnderstanding.
Definition INPUT_TYPES : list string :=
  handles ++ ["prompt"; "image"; "seed"; "max_think_token_n"].
Definition RETURN_TYPES : list string := ["TEXT"].
Definition FUNCTION : string := "understanding".
Definition parameters : list string :=
  handles ++ ["prompt"; "image"; "seed"; "max_think_token_n"].

Definition understanding
  (model vae_model tokenizer vae_transform vit_transform new_token_ids
   prompt image seed max_think_token_n : value) : prog value :=
  inferencer ← InterleaveInferencer model vae_model tokenizer vae_transform
                 vit_transform new_token_ids;
  _ ← seed_preamble seed;
  let inference_hyper : gmap string value :=
    {[ "max_think_token_n" := VInt 1000;
       "do_sample" := VBool false ]} in
  output_dict ← invoke inferencer
                  (<["image" := image]> (<["text" := prompt]>
                     (<["understanding_output" := VBool true]> inference_hyper)));
  text ← subscript output_dict "text";
  Ret (VTuple [text]).
End ImageUnderstanding.

(** ** Model loader *)

Module LoadBAGELModel.
Definition INPUT_TYPES : list string := ["model_path"].
Definition RETURN_TYPES : list string :=
  ["MODEL"; "VAEMODEL"; "TOKENIZER"; "VAETRANSFORM"; "VITTRANSFORM"; "TOKENIDS"].
Definition FUNCTION : string := "load_model".
Definition parameters : list string := ["model_path"].

Definition same_device_modules : list string :=
  ["language_model.model.embed_tokens";
   "time_embedder";
   "latent_pos_embed";
   "vae2llm";
   "llm2vae";
   "connector";
   "vit_pos_embed"].

(** [same_device_modules[0]] *)
Definition first_module : string := default "" (same_device_modules !! 0%nat).

(** Lines 112-123: the pass over the plan of [infer_auto_device_map].
    [device_count] is what [torch.cuda.device_count()] answered; the loop
    updates the dict in place, so each test [k in device_map] sees the
    updates made before it. *)
Definition colocate (device_count : value) (device_map : gmap string value)
  : gmap string value :=
  if eq_one device_count then
    let first_device := default (VStr "cuda:0") (device_map !! first_module) in
    foldl (fun dm k =>
             if decide (is_Some (dm !! k)) then <[k := first_device]> dm
             else <[k := VStr "cuda:0"]> dm)
          device_map same_device_modules
  else
    let first_device := default VNone (device_map !! first_module) in
    foldl (fun dm k =>
             if decide (is_Some (dm !! k)) then <[k := first_device]> dm
             else dm)
          device_map same_device_modules.

(** [{i: max_mem_per_gpu for i in range(n)}] *)
Definition max_memory (n : value) (max_mem_per_gpu : value) : prog value :=
  match n with
  | VInt z =>
      Ret (VIntDict (list_to_map
             ((fun i => (Z.of_nat i, max_mem_per_gpu)) <$> seq 0 (Z.to_nat z))))
  | VBool b =>
      Ret (VIntDict (list_to_map
             ((fun i => (Z.of_nat i, max_mem_per_gpu)) <$> seq 0 (Nat.b2n b))))
  | _ => Throw (TypeError "object cannot be interpreted as an integer")
  end.

Definition torch_bfloat16 : value := VObject "torch.bfloat16" ∅.

Definition load_model (model_path : value) : prog value :=
  (* LLM config preparing *)
  path ← os_path_join model_path "llm_config.json";
  llm_config ← call "Qwen2Config.from_json_file" [path] ∅;
  _ ← setattr llm_config "qk_norm" (VBool true);
  _ ← setattr llm_config "tie_word_embeddings" (VBool false);
  _ ← setattr llm_config "layer_module" (VStr "Qwen2MoTDecoderLayer");
  (* ViT config preparing *)
  path ← os_path_join model_path "vit_config.json";
  vit_config ← call "SiglipVisionConfig.from_json_file" [path] ∅;
  _ ← setattr vit_config "rope" (VBool false);
  layers ← getattr vit_config "num_hidden_layers";
  layers ← minus_one layers;
  _ ← setattr vit_config "num_hidden_layers" layers;
  (* VAE loading *)
  path ← os_path_join model_path "ae.safetensors";
  ae ← call "load_ae" [] {[ "local_path" := path ]};
  '(vae_model, vae_config) ← unpack2 ae;
  (* Bagel config preparing *)
  config ← call "BagelConfig" []
             {[ "visual_gen" := VBool true;
                "visual_und" := VBool true;
                "llm_config" := llm_config;
                "vit_config" := vit_config;
                "vae_config" := vae_config;
                "vit_max_num_patch_per_side" := VInt 70;
                "connector_act" := VStr "gelu_pytorch_tanh";
                "latent_patch_size" := VInt 2;
                "max_latent_size" := VInt 64 ]};
  model ← with_ "init_empty_weights" (
    language_model ← call "Qwen2ForCausalLM" [llm_config] ∅;
    vit_model ← call "SiglipVisionModel" [vit_config] ∅;
    model ← call "Bagel" [language_model; vit_model; config] ∅;
    vm ← getattr model "vit_model";
    vision_model ← getattr vm "vision_model";
    embeddings ← getattr vision_model "embeddings";
    _ ← method embeddings "convert_conv2d_to_linear" [vit_config]
          {[ "meta" := VBool true ]};
    Ret model);
  (* Tokenizer preparing *)
  tokenizer ← call "Qwen2Tokenizer.from_pretrained" [model_path] ∅;
  added ← call "add_special_tokens" [tokenizer] ∅;
  '(tokenizer, new_token_ids, _) ← unpack3 added;
  (* Image transform preparing *)
  vae_transform ← call "ImageTransform" [VInt 1024; VInt 512; VInt 16] ∅;
  vit_transform ← call "ImageTransform" [VInt 980; VInt 224; VInt 14] ∅;
  let max_mem_per_gpu := VStr "40GiB" in
  n ← call "torch.cuda.device_count" [] ∅;
  budget ← max_memory n max_mem_per_gpu;
  device_map ← call "infer_auto_device_map" [model]
                 {[ "max_memory" := budget;
                    "no_split_module_classes" :=
                      VList [VStr "Bagel"; VStr "Qwen2MoTDecoderLayer"] ]};
  _ ← print device_map;
  n ← call "torch.cuda.device_count" [] ∅;
  device_map ← match device_map with
               | VDict dm => Ret (VDict (colocate n dm))
               | _ => Throw (AttributeError "get")
               end;
  path ← os_path_join model_path "ema.safetensors";
  model ← call "load_checkpoint_and_dispatch" [model]
            {[ "checkpoint" := path;
               "device_map" := device_map;
               "offload_buffers" := VBool true;
               "dtype" := torch_bfloat16;
               "force_hooks" := VBool true ]};
  model ← method model "eval" [] ∅;
  _ ← print (VStr "Model loaded");
  Ret (VTuple [model; vae_model; tokenizer; vae_transform; vit_transform;
               new_token_ids]).
End LoadBAGELModel.

(** ** The host's call of a node function

    The host reads the class's input schema, collects one value per declared
    field and calls the function named by [FUNCTION] with them as keyword
    arguments.  None of the node functions declares defaults or starred
    parameters, so Python binds the call only if every keyword is a parameter
    and every parameter is given; it reports the first keyword it cannot
    place, and only then a parameter left without a value.  The messages are
    worded as CPython words them for a single offending name. *)

Definition arg (env : gmap string value) (name : string) : value :=
  default VNone (env !! name).

Record node_class : Type := NodeClass {
  input_types : list string;       (* keys of INPUT_TYPES()["required"] *)
  return_types : list string;      (* RETURN_TYPES *)
  function_name : string;          (* FUNCTION *)
  function_parameters : list string;  (* the def's parameters after self *)
  function_body : gmap string value -> prog value;
}.

Definition bind_arguments (fname : string) (params : list string)
  (kwargs : list (string * value)) : exn + gmap string value :=
  match filter (fun kv => kv.1 ∉ params) kwargs with
  | (k, _) :: _ =>
      inl (TypeError (fname ++ "() got an unexpected keyword argument '" ++ k ++ "'"))
  | [] =>
      match filter (fun p => p ∉ kwargs.*1) params with
      | p :: _ =>
          inl (TypeError (fname ++ "() missing 1 required positional argument: '" ++ p ++ "'"))
      | [] => inr (list_to_map kwargs)
      end
  end.

Definition execute (n : node_class) (inputs : list (string * value)) : prog value :=
  match bind_arguments (function_name n) (function_parameters n) inputs with
  | inl e => Throw e
  | inr env => function_body n env
  end.

(** The keyword arguments the host builds from the schema. *)
Definition schema_inputs (n : node_class) (widget : string -> value)
  : list (string * value) :=
  (fun name => (name, widget name)) <$> input_types n.

Definition LoadBAGELModel_class : node_class :=
  NodeClass LoadBAGELModel.INPUT_TYPES LoadBAGELModel.RETURN_TYPES
    LoadBAGELModel.FUNCTION LoadBAGELModel.parameters
    (fun a => LoadBAGELModel.load_model (arg a "model_path")).

Definition BagelPrompt_class : node_class :=
  NodeClass BagelPrompt.INPUT_TYPES BagelPrompt.RETURN_TYPES
    BagelPrompt.FUNCTION BagelPrompt.parameters
    (fun a => BagelPrompt.input_text (arg a "text")).

Definition LoadEditImage_class : node_class :=
  NodeClass LoadEditImage.INPUT_TYPES LoadEditImage.RETURN_TYPES
    LoadEditImage.FUNCTION LoadEditImage.parameters
    (fun a => LoadEditImage.input_image (arg a "image_path")).

Definition ImageGeneration_class : node_class :=
  NodeClass ImageGeneration.INPUT_TYPES ImageGeneration.RETURN_TYPES
    ImageGeneration.FUNCTION ImageGeneration.parameters
    (fun a => ImageGeneration.generate
       (arg a "model") (arg a "vae_model") (arg a "tokenizer")
       (arg a "vae_transform") (arg a "vit_transform") (arg a "new_token_ids")
       (arg a "prompt") (arg a "image_ratio") (arg a "seed")
       (arg a "cfg_text_scale") (arg a "cfg_img_scale") (arg a "cfg_interval")
       (arg a "timestep_shift") (arg a "num_timesteps") (arg a "cfg_renorm_min")
       (arg a "cfg_renorm_type") (arg a "text_temperature")).

Definition ImageThinkGeneration_class : node_class :=
  NodeClass ImageThinkGeneration.INPUT_TYPES ImageThinkGeneration.RETURN_TYPES
    ImageThinkGeneration.FUNCTION ImageThinkGeneration.parameters
    (fun a => ImageThinkGeneration.generate
       (arg a "model") (arg a "vae_model") (arg a "tokenizer")
       (arg a "vae_transform") (arg a "vit_transform") (arg a "new_token_ids")
       (arg a "prompt") (arg a "seed") (arg a "max_think_token_n")
       (arg a "cfg_text_scale") (arg a "cfg_img_scale") (arg a "timestep_shift")
       (arg a "num_timesteps") (arg a "cfg_renorm_min") (arg a "cfg_interval")
       (arg a "cfg_renorm_type") (arg a "text_temperature")).

Definition ImageEditing_class : node_class :=
  NodeClass ImageEditing.INPUT_TYPES ImageEditing.RETURN_TYPES
    ImageEditing.FUNCTION ImageEditing.parameters
    (fun a => ImageEditing.editing
       (arg a "model") (arg a "vae_model") (arg a "tokenizer")
       (arg a "vae_transform") (arg a "vit_transform") (arg a "new_token_ids")
       (arg a "prompt") (arg a "image") (arg a "seed")
       (arg a "cfg_text_scale") (arg a "cfg_img_scale") (arg a "timestep_shift")
       (arg a "num_timesteps") (arg a "cfg_renorm_min")).

Definition ImageThinkEditing_class : node_class :=
  NodeClass ImageThinkEditing.INPUT_TYPES ImageThinkEditing.RETURN_TYPES
    ImageThinkEditing.FUNCTION ImageThinkEditing.parameters
    (fun a => ImageThinkEditing.editing
       (arg a "model") (arg a "vae_model") (arg a "tokenizer")
       (arg a "vae_transform") (arg a "vit_transform") (arg a "new_token_ids")
       (arg a "prompt") (arg a "image") (arg a "seed") (arg a "max_think_token_n")
       (arg a "cfg_text_scale") (arg a "cfg_img_scale") (arg a "timestep_shift")
       (arg a "num_timesteps") (arg a "cfg_renorm_min")).

Definition ImageUnderstanding_class : node_class :=
  NodeClass ImageUnderstanding.INPUT_TYPES ImageUnderstanding.RETURN_TYPES
    ImageUnderstanding.FUNCTION ImageUnderstanding.parameters
    (fun a => ImageUnderstanding.understanding
       (arg a "model") (arg a "vae_model") (arg a "tokenizer")
       (arg a "vae_transform") (arg a "vit_transform") (arg a "new_token_ids")
       (arg a "prompt") (arg a "image") (arg a "seed") (arg a "max_think_token_n")).

(** [__init__.py] *)
Definition NODE_CLASS_MAPPINGS : list (string * node_class) :=
  [("LoadBAGELModel", LoadBAGELModel_class);
   ("BagelPrompt", BagelPrompt_class);
   ("LoadEditImage", LoadEditImage_class);
   ("ImageGeneration", ImageGeneration_class);
   ("ImageThinkGeneration", ImageThinkGeneration_class);
   ("ImageEditing", ImageEditing_class);
   ("ImageThinkEditing", ImageThinkEditing_class);
   ("ImageUnderstanding", ImageUnderstanding_class)].

(** Whether the host's schema-matching call reaches the function body. *)
Definition binds_schema_call (n : node_class) (widget : string -> value) : bool :=
  match bind_arguments (function_name n) (function_parameters n)
                       (schema_inputs n widget) with
  | inr _ => true
  | inl _ => false
  end.

(** The five dispatch variants of the specification's table. *)
Inductive variant : Type :=
| Generation | ThinkGeneration | Editing | ThinkEditing | Understanding.

Definition node_of (v : variant) : node_class :=
  match v with
  | Generation => ImageGeneration_class
  | ThinkGeneration => ImageThinkGeneration_class
  | Editing => ImageEditing_class
  | ThinkEditing => ImageThinkEditing_class
  | Understanding => ImageUnderstanding_class
  end.

(** A call of the variant's function with its parameters bound to [env]. *)
Definition dispatch (v : variant) (env : gmap string value) : prog value :=
  function_body (node_of v) env.

(** ** What a run passed to the libraries *)

(** The keyword dictionaries of the inferencer invocations, in order. *)
Definition inferencer_kwargs (t : trace) : list (gmap string value) :=
  omap (fun x => match x.1 with
                 | EMethod _ name _ kwargs =>
                     if String.eqb name "__call__" then Some kwargs else None
                 | _ => None
                 end) t.

(** The dictionaries the inferencer answered with. *)
Definition inferencer_results (t : trace) : list (gmap string value) :=
  omap (fun x => match x with
                 | (EMethod _ name _ _, inr (VDict d)) =>
                     if String.eqb name "__call__" then Some d else None
                 | _ => None
                 end) t.

Definition seeding_functions : list string :=
  ["random.seed"; "np.random.seed"; "torch.manual_seed";
   "torch.cuda.manual_seed"; "torch.cuda.manual_seed_all"].

(** The reseed sequence: which seeding function was called on what. *)
Definition seed_calls (t : trace) : list (string * list value) :=
  omap (fun x => match x.1 with
                 | ECall fn args _ =>
                     if bool_decide (fn ∈ seeding_functions)
                     then Some (fn, args) else None
                 | _ => None
                 end) t.

(** Calls that raised. *)
Definition raised (t : trace) : list exn :=
  omap (fun x => match x.2 with inl e => Some e | inr _ => None end) t.

(** ** The table of section 4.3, as the specification words it *)

Record table_row : Type := Row {
  row_think : bool;
  row_cfg_interval : float * float;
  row_cfg_renorm_type : option string;   (* [None]: user-selected *)
}.

Definition spec_table (v : variant) : option table_row :=
  match v with
  | Generation => Some (Row false (0.4, 1.0)%float None)
  | ThinkGeneration => Some (Row true (0.4, 1.0)%float (Some "global"))
  | Editing => Some (Row false (0.0, 1.0)%float (Some "text_channel"))
  | ThinkEditing => Some (Row true (0.0, 1.0)%float (Some "text_channel"))
  | Understanding => None
  end.

(** A keyword dictionary agrees with a row: the interval and renorm type are
    the row's, and the think flag is passed as true exactly on the think
    rows (the other rows pass no think flag). *)
Definition matches_row (r : table_row) (user_renorm : value)
  (kwargs : gmap string value) : Prop :=
  kwargs !! "cfg_interval"
    = Some (VList [VFloat (row_cfg_interval r).1; VFloat (row_cfg_interval r).2])
  ∧ kwargs !! "cfg_renorm_type"
    = Some (match row_cfg_renorm_type r with
            | Some s => VStr s
            | None => user_renorm
            end)
  ∧ kwargs !! "think" = (if row_think r then Some (VBool true) else None).

(** The result keys each variant reads, per the Outputs column. *)
Definition extracted_keys (v : variant) : list string :=
  match v with
  | Generation | Editing => ["image"]
  | ThinkGeneration | ThinkEditing => ["image"; "text"]
  | Understanding => ["text"]
  end.

(** ** A reference meaning for the libraries the dispatch nodes use

    Process-wide generator state, reseeded by the seeding functions; the
    inferencer is any function of its construction arguments, its call
    arguments and that state. *)

Record world (gen : Type) : Type := World {
  py_random : gen;                 (* random *)
  np_random : gen;                 (* numpy.random *)
  torch_cpu : gen;                 (* torch default generator *)
  torch_cuda : list gen;           (* one generator per CUDA device *)
  cudnn_deterministic : value;
  cudnn_benchmark : value;
}.
Arguments World {gen} _ _ _ _ _ _.
Arguments py_random {gen} _.
Arguments np_random {gen} _.
Arguments torch_cpu {gen} _.
Arguments torch_cuda {gen} _.
Arguments cudnn_deterministic {gen} _.
Arguments cudnn_benchmark {gen} _.

Record machine : Type := Machine {
  cuda_available : bool;
  cuda_device_count : nat;
  cuda_current_device : nat;
}.

Record library (gen : Type) : Type := Library {
  random_seed : value -> exn + gen;
  np_random_seed : value -> exn + gen;
  torch_manual_seed : value -> exn + gen;
  torch_cuda_manual_seed : value -> exn + gen;
  next_value : gen -> Z * gen;
  inferencer : gmap string value -> gmap string value -> world gen
               -> response * world gen;
}.
Arguments random_seed {gen} _ _.
Arguments np_random_seed {gen} _ _.
Arguments torch_manual_seed {gen} _ _.
Arguments torch_cuda_manual_seed {gen} _ _.
Arguments next_value {gen} _ _.
Arguments inferencer {gen} _ _ _ _.

Definition reseed {gen} (seeded : exn + gen) (w : world gen)
  (store : gen -> world gen) : response * world gen :=
  match seeded with
  | inl e => (inl e, w)
  | inr g => (inr VNone, store g)
  end.

Definition unsupported {gen} (what : string) (w : world gen)
  : response * world gen := (inl (RuntimeError what), w).

Definition lib_sem {gen} (L : library gen) (m : machine) : handler (world gen) :=
  fun ef w =>
  let '(World py np cpu cuda det bench) := w in
  match ef with
  | ECall fn [seed] _ =>
      if String.eqb fn "random.seed" then
        reseed (random_seed L seed) w (fun g => World g np cpu cuda det bench)
      else if String.eqb fn "np.random.seed" then
        reseed (np_random_seed L seed) w (fun g => World py g cpu cuda det bench)
      else if String.eqb fn "torch.manual_seed" then
        reseed (torch_manual_seed L seed) w (fun g => World py np g cuda det bench)
      else if String.eqb fn "torch.cuda.manual_seed" then
        reseed (torch_cuda_manual_seed L seed) w
          (fun g => World py np cpu (<[cuda_current_device m := g]> cuda) det bench)
      else if String.eqb fn "torch.cuda.manual_seed_all" then
        reseed (torch_cuda_manual_seed L seed) w
          (fun g => World py np cpu (replicate (cuda_device_count m) g) det bench)
      else unsupported fn w
  | ECall fn [] kwargs =>
      if String.eqb fn "torch.cuda.is_available" then
        (inr (VBool (cuda_available m)), w)
      else if String.eqb fn "InterleaveInferencer" then
        (inr (VObject "InterleaveInferencer" kwargs), w)
      else unsupported fn w
  | EMethod (VObject cls made_with) name [] kwargs =>
      if String.eqb cls "InterleaveInferencer" && String.eqb name "__call__"
      then inferencer L made_with kwargs w
      else unsupported name w
  | ESetGlobal target v =>
      if String.eqb target "torch.backends.cudnn.deterministic" then
        (inr VNone, World py np cpu cuda v bench)
      else if String.eqb target "torch.backends.cudnn.benchmark" then
        (inr VNone, World py np cpu cuda det v)
      else unsupported target w
  | _ => unsupported "effect" w
  end.

(** The next [n] values a generator yields. *)
Fixpoint draws {gen} (next : gen -> Z * gen) (n : nat) (g : gen) : list Z :=
  match n with
  | O => []
  | S n' => let '(x, g') := next g in x :: draws next n' g'
  end.

(** Two prior states are of the same machine when the CUDA generators the
    preamble leaves alone are the same. *)
Definition same_machine {gen} (m : machine) (w1 w2 : world gen) : Prop :=
  cuda_available m = false -> torch_cuda w1 = torch_cuda w2.

(** The library states in which the inferencer was invoked, in order: as
    [run] goes through the program, the state each [__call__] found. *)
Fixpoint invocation_states {S A} (h : handler S) (p : prog A) (s : S) : list S :=
  match p with
  | Ret _ | Throw _ => []
  | Vis ef k =>
      let later := invocation_states h (k (h ef s).1) (h ef s).2 in
      match ef with
      | EMethod _ name _ _ =>
          if String.eqb name "__call__" then s :: later else later
      | _ => later
      end
  end.

(** ** The co-location property of the device map *)

(** All names of the group are assigned, and to one device. *)
Definition co_located (names : list string) (device_map : gmap string value)
  : Prop :=
  exists d, forall k, k ∈ names -> device_map !! k = Some d.

(** ** What a run of the loader asked and was answered *)

Definition config_readers : list string :=
  ["Qwen2Config.from_json_file"; "SiglipVisionConfig.from_json_file"].

(** Exceptions raised by the reads of a configuration file. *)
Definition config_read_errors (t : trace) : list exn :=
  omap (fun x => match x with
                 | (ECall f _ _, inl e) =>
                     if bool_decide (f ∈ config_readers) then Some e else None
                 | _ => None
                 end) t.

(** The paths the configuration files were read from. *)
Definition config_reads (t : trace) : list (string * list value) :=
  omap (fun x => match x.1 with
                 | ECall f args _ =>
                     if bool_decide (f ∈ config_readers) then Some (f, args) else None
                 | _ => None
                 end) t.

(** Values answered by the calls of function [fn]. *)
Definition answers_of (fn : string) (t : trace) : list value :=
  omap (fun x => match x with
                 | (ECall f _ _, inr v) => if String.eqb f fn then Some v else None
                 | _ => None
                 end) t.

(** Values answered by the calls of method [name]. *)
Definition method_answers (name : string) (t : trace) : list value :=
  omap (fun x => match x with
                 | (EMethod _ f _ _, inr v) => if String.eqb f name then Some v else None
                 | _ => None
                 end) t.

(** First and second component of a library answer that is a pair or triple. *)
Definition component (i : nat) (v : value) : option value :=
  match v with
  | VTuple l | VList l => l !! i
  | _ => None
  end.

(** ** Sample libraries, used to exercise the theorems *)

Definition lcg_seed (v : value) : exn + Z :=
  match v with
  | VInt z => inr z
  | VBool b => inr (Z.b2z b)
  | _ => inl (TypeError "seed must be an integer")
  end.

Definition lcg_next (g : Z) : Z * Z :=
  let g' := (g * 1103515245 + 12345) mod 2147483648 in (g', g').

(** An inferencer that draws once from each CPU-side generator and answers
    both result keys. *)
Definition sampling_inferencer (made_with kwargs : gmap string value)
  (w : world Z) : response * world Z :=
  let '(a, py) := lcg_next (py_random w) in
  let '(b, np) := lcg_next (np_random w) in
  let '(c, cpu) := lcg_next (torch_cpu w) in
  (inr (VDict {[ "image" := VTuple [VInt a; VInt b; VInt c];
                 "text" := default VNone (kwargs !! "text") ]}),
   World py np cpu (torch_cuda w) (cudnn_deterministic w) (cudnn_benchmark w)).

(** An inferencer whose answer has no text. *)
Definition image_only_inferencer (made_with kwargs : gmap string value)
  (w : world Z) : response * world Z :=
  (inr (VDict {[ "image" := VStr "pixels" ]}), w).

Definition lcg_library : library Z :=
  Library Z lcg_seed lcg_seed lcg_seed lcg_seed lcg_next sampling_inferencer.

Definition image_only_library : library Z :=
  Library Z lcg_seed lcg_seed lcg_seed lcg_seed lcg_next image_only_inferencer.

Definition cpu_machine : machine := Machine false 0 0.
Definition gpu_machine : machine := Machine true 2 0.

Definition fresh_world : world Z := World 1 2 3 [] VNone VNone.
Definition used_world : world Z := World 77 88 99 [] (VBool false) (VBool true).

Definition sample_env : gmap string value :=
  list_to_map
    [("model", VObject "Bagel" ∅);
     ("vae_model", VObject "AutoEncoder" ∅);
     ("tokenizer", VObject "Qwen2Tokenizer" ∅);
     ("vae_transform", VObject "ImageTransform" ∅);
     ("vit_transform", VObject "ImageTransform" ∅);
     ("new_token_ids", VDict ∅);
     ("prompt", VStr "a car made of small cars");
     ("image", VStr "test_images/women.jpg");
     ("seed", VInt 0);
     ("max_think_token_n", VInt 500);
     ("image_ratio", VStr "1:1");
     ("cfg_text_scale", VFloat 4.0%float);
     ("cfg_img_scale", VFloat 2.0%float);
     ("cfg_interval", VFloat 0.4%float);
     ("timestep_shift", VFloat 3.0%float);
     ("num_timesteps", VInt 50);
     ("cfg_renorm_min", VFloat 1.0%float);
     ("cfg_renorm_type", VStr "local");
     ("text_temperature", VFloat 0.3%float)].

(** A model directory on disk: reading a configuration file that is not
    among [files] raises; every other library call answers a fresh handle. *)
Definition disk_sem (files : list string) (device_count : Z)
  (plan : gmap string value) : handler unit :=
  fun ef s =>
  match ef with
  | ECall fn args _ =>
      if bool_decide (fn ∈ config_readers) then
        match args with
        | [VStr path] =>
            if bool_decide (path ∈ files) then (inr (VObject fn ∅), s)
            else (inl (FileNotFoundError path), s)
        | _ => (inl (TypeError fn), s)
        end
      else if String.eqb fn "load_ae" then
        (inr (VTuple [VObject "AutoEncoder" ∅; VObject "AutoEncoderParams" ∅]), s)
      else if String.eqb fn "add_special_tokens" then
        (inr (VTuple [default VNone (args !! 0%nat); VDict ∅; VInt 0]), s)
      else if String.eqb fn "torch.cuda.device_count" then
        (inr (VInt device_count), s)
      else if String.eqb fn "infer_auto_device_map" then
        (inr (VDict plan), s)
      else (inr (VObject fn ∅), s)
  | EMethod self _ _ _ => (inr self, s)
  | EGetAttr _ name =>
      if String.eqb name "num_hidden_layers" then (inr (VInt 27), s)
      else (inr (VObject name ∅), s)
  | _ => (inr VNone, s)
  end.

(** ** Further observations of a run *)

(** The library entry points a run went through, in order. *)
Definition call_names (t : trace) : list string :=
  (fun x => match x.1 with
            | ECall fn _ _ => fn
            | EMethod _ name _ _ => name
            | EGetAttr _ name => name
            | ESetAttr _ name _ => name
            | ESetGlobal target _ => target
            | EPrint _ => "print"
            end) <$> t.

(** Assignments to library globals. *)
Definition flag_assignments (t : trace) : list (string * value) :=
  omap (fun x => match x.1 with
                 | ESetGlobal target v => Some (target, v)
                 | _ => None
                 end) t.

(** Keyword and positional arguments of the calls of function [fn]. *)
Definition kwargs_of (fn : string) (t : trace) : list (gmap string value) :=
  omap (fun x => match x.1 with
                 | ECall f _ kwargs => if String.eqb f fn then Some kwargs else None
                 | _ => None
                 end) t.

Definition args_of (fn : string) (t : trace) : list (list value) :=
  omap (fun x => match x.1 with
                 | ECall f args _ => if String.eqb f fn then Some args else None
                 | _ => None
                 end) t.

(** The objects whose [__call__] was invoked. *)
Definition invoked_objects (t : trace) : list value :=
  omap (fun x => match x.1 with
                 | EMethod self name _ _ =>
                     if String.eqb name "__call__" then Some self else None
                 | _ => None
                 end) t.

(** Attribute writes and reads on library objects. *)
Definition attr_writes (t : trace) : list (value * string * value) :=
  omap (fun x => match x.1 with
                 | ESetAttr obj name v => Some (obj, name, v)
                 | _ => None
                 end) t.

Definition attr_reads (name : string) (t : trace) : list (value * value) :=
  omap (fun x => match x with
                 | (EGetAttr obj f, inr v) =>
                     if String.eqb f name then Some (obj, v) else None
                 | _ => None
                 end) t.

(** The library calls of a dispatch function, in source order; the two CUDA
    seedings are made when [torch.cuda.is_available()] answered true. *)
Definition dispatch_sequence (cuda : bool) : list string :=
  ["InterleaveInferencer"; "random.seed"; "np.random.seed";
   "torch.manual_seed"; "torch.cuda.is_available"]
  ++ (if cuda then ["torch.cuda.manual_seed"; "torch.cuda.manual_seed_all"]
      else [])
  ++ ["torch.backends.cudnn.deterministic"; "torch.backends.cudnn.benchmark";
      "__call__"].

(** The inputs a variant hands to the inferencer under their own name. *)
Definition sampling_inputs : list string :=
  ["cfg_text_scale"; "cfg_img_scale"; "timestep_shift"; "num_timesteps";
   "cfg_renorm_min"].

Definition threaded (v : variant) : list string :=
  match v with
  | Generation => sampling_inputs ++ ["cfg_renorm_type"]
  | ThinkGeneration => "max_think_token_n" :: sampling_inputs
  | Editing => "image" :: sampling_inputs
  | ThinkEditing => "image" :: "max_think_token_n" :: sampling_inputs
  | Understanding => ["image"]
  end.

(** The keys of the keyword dictionary a variant invokes the inferencer with. *)
Definition passed_keys (v : variant) : list string :=
  match v with
  | Generation =>
      ["text"; "cfg_interval"; "cfg_renorm_type"] ++ sampling_inputs
  | ThinkGeneration =>
      ["text"; "think"; "max_think_token_n"; "do_sample"; "cfg_interval";
       "cfg_renorm_type"] ++ sampling_inputs
  | Editing =>
      ["image"; "text"; "cfg_interval"; "cfg_renorm_type"] ++ sampling_inputs
  | ThinkEditing =>
      ["image"; "text"; "think"; "max_think_token_n"; "do_sample";
       "cfg_interval"; "cfg_renorm_type"] ++ sampling_inputs
  | Understanding =>
      ["image"; "text"; "understanding_output"; "max_think_token_n"; "do_sample"]
  end.

(** The parameters a variant's function takes and never reads. *)
Definition ignored (v : variant) : list string :=
  match v with
  | Generation => ["image_ratio"; "cfg_interval"; "text_temperature"]
  | ThinkGeneration => ["cfg_interval"; "cfg_renorm_type"; "text_temperature"]
  | Editing | ThinkEditing => []
  | Understanding => ["max_think_token_n"]
  end.

(** Libraries of which numpy alone checks the seed. *)
Definition numpy_checks_library : library Z :=
  Library Z (fun _ => inr 7) lcg_seed lcg_seed lcg_seed lcg_next
          sampling_inferencer.

(** ** The empty-weights context of the loader *)

Definition context_enter : string := "init_empty_weights.__enter__".
Definition context_exit : string := "init_empty_weights.__exit__".

(** Whether the context is open after the events [t], having been [inside]
    before them: a successful enter opens it, a call of exit closes it. *)
Fixpoint context_state (inside : bool) (t : trace) : bool :=
  match t with
  | [] => inside
  | (ECall fn _ _, r) :: t' =>
      if String.eqb fn context_enter then
        context_state (match r with inr _ => true | inl _ => inside end) t'
      else if String.eqb fn context_exit then context_state false t'
      else context_state inside t'
  | _ :: t' => context_state inside t'
  end.

(** Each library entry point of [t], with whether the context was open when
    it was gone through. *)
Fixpoint context_marks (inside : bool) (t : trace) : list (string * bool) :=
  match t with
  | [] => []
  | x :: t' =>
      (match x.1 with
       | ECall fn _ _ => fn
       | EMethod _ name _ _ => name
       | EGetAttr _ name => name
       | ESetAttr _ name _ => name
       | ESetGlobal target _ => target
       | EPrint _ => "print"
       end, inside) :: context_marks (context_state inside [x]) t'
  end.

(** What is built on placeholder weights, and what needs the context closed. *)
Definition built_inside : list string :=
  ["Qwen2ForCausalLM"; "SiglipVisionModel"; "Bagel"; "convert_conv2d_to_linear"].

Definition done_outside : list string :=
  ["Qwen2Config.from_json_file"; "SiglipVisionConfig.from_json_file"; "load_ae";
   "Qwen2Tokenizer.from_pretrained"; "infer_auto_device_map";
   "load_checkpoint_and_dispatch"; "eval"].

(** The attribute writes of lines 54-61 on the two configuration objects. *)
Definition config_overrides (llm_config vit_config layers : value)
  : list (value * string * value) :=
  [(llm_config, "qk_norm", VBool true);
   (llm_config, "tie_word_embeddings", VBool false);
   (llm_config, "layer_module", VStr "Qwen2MoTDecoderLayer");
   (vit_config, "rope", VBool false);
   (vit_config, "num_hidden_layers", layers)].

(** A model directory with both configuration files, and libraries in which
    the constructor [failing] raises. *)
Definition failing_constructor_sem (failing : string) : handler unit :=
  fun ef s =>
  match ef with
  | ECall fn _ _ =>
      if String.eqb fn failing then (inl (RuntimeError failing), s)
      else disk_sem ["./BAGEL-7B-MoT/llm_config.json";
                     "./BAGEL-7B-MoT/vit_config.json"] 1 ∅ ef s
  | _ => disk_sem ["./BAGEL-7B-MoT/llm_config.json";
                   "./BAGEL-7B-MoT/vit_config.json"] 1 ∅ ef s
  end.

(** * Theorems *)

(** ** The program logic is sound for every handler *)

Lemma run_ensures {A} (Φ : trace -> exn + A -> Prop) (p : prog A) :
  ensures Φ p ->
  forall S (h : handler S) (s : S),
    Φ (events (run h p s)) (result (run h p s)).
Proof. intros H. exact H. Qed.

Lemma run_bind {S A B} (h : handler S) (m : prog A) (f : A -> prog B) (s : S) :
  run h (bind m f) s =
  match result (run h m s) with
  | inl e => Outcome (inl e) (final (run h m s)) (events (run h m s))
  | inr a =>
      let o := run h (f a) (final (run h m s)) in
      Outcome (result o) (final o) (events (run h m s) ++ events o)%list
  end.
Proof.
  revert s. induction m as [a | e | ef k IH]; intros s; cbn.
  - by destruct (run h (f a) s).
  - done.
  - destruct (h ef s) as [r s']. rewrite IH. unfold logged. cbn.
    destruct (result (run h (k r) s')); reflexivity.
Qed.

Lemma run_finally {S A} (h : handler S) (body : prog A) (cleanup : prog value)
  (s : S) :
  run h (finally body cleanup) s =
  let o := run h body s in
  let c := run h cleanup (final o) in
  Outcome (match result c with inl e => inl e | inr _ => result o end)
          (final c) (events o ++ events c)%list.
Proof.
  revert s. induction body as [a | e | ef k IH]; intros s; cbn [finally].
  - rewrite run_bind. cbn. destruct (result (run h cleanup s)); cbn;
      [reflexivity | by rewrite app_nil_r].
  - rewrite run_bind. cbn. destruct (result (run h cleanup s)); cbn;
      [reflexivity | by rewrite app_nil_r].
  - cbn. destruct (h ef s) as [r s']. rewrite IH. reflexivity.
Qed.

(** *** Rules of the program logic *)

Lemma ensures_Ret {A} (Φ : trace -> exn + A -> Prop) (a : A) :
  Φ [] (inr a) -> ensures Φ (Ret a).
Proof. intros H S h s. exact H. Qed.

Lemma ensures_Throw {A} (Φ : trace -> exn + A -> Prop) (e : exn) :
  Φ [] (inl e) -> ensures Φ (Throw e).
Proof. intros H S h s. exact H. Qed.

Lemma ensures_Vis {A} (Φ : trace -> exn + A -> Prop) (ef : effect)
  (k : response -> prog A) :
  (forall r, ensures (fun t res => Φ ((ef, r) :: t) res) (k r)) ->
  ensures Φ (Vis ef k).
Proof. intros H S h s. cbn. destruct (h ef s) as [r s']. apply H. Qed.

Lemma ensures_bind {A B} (Φ : trace -> exn + B -> Prop) (m : prog A)
  (f : A -> prog B) :
  ensures (fun t1 r1 =>
             match r1 with
             | inl e => Φ t1 (inl e)
             | inr a => ensures (fun t2 r2 => Φ (t1 ++ t2)%list r2) (f a)
             end) m ->
  ensures Φ (bind m f).
Proof.
  intros H S h s. rewrite run_bind. specialize (H S h s).
  destruct (result (run h m s)) as [e | a]; cbn; [exact H | apply H].
Qed.

Lemma ensures_finally {A} (Φ : trace -> exn + A -> Prop) (body : prog A)
  (cleanup : prog value) :
  ensures (fun t1 r1 =>
             ensures (fun t2 r2 =>
                        Φ (t1 ++ t2)%list
                          (match r2 with inl e => inl e | inr _ => r1 end))
                     cleanup) body ->
  ensures Φ (finally body cleanup).
Proof. intros H S h s. rewrite run_finally. cbn. apply H. Qed.

(** The language's own operations touch no library: each returns or raises. *)

Lemma os_path_join_cases (a : value) (b : string) :
  (exists p, a = VStr p ∧ os_path_join a b = Ret (VStr (path_join p b)))
  ∨ (exists e, os_path_join a b = Throw e).
Proof. destruct a; cbn; eauto. Qed.

Lemma minus_one_cases (v : value) :
  (exists x, minus_one v = Ret x) ∨ (exists e, minus_one v = Throw e).
Proof. destruct v; cbn; eauto. Qed.

Lemma unpack2_cases (v : value) :
  (exists a b, unpack2 v = Ret (a, b)
               ∧ component 0 v = Some a ∧ component 1 v = Some b)
  ∨ (exists e, unpack2 v = Throw e).
Proof.
  destruct v as [| | | | |l|l| | |]; cbn; eauto;
    destruct l as [| a [| b [| c l]]]; cbn; eauto 10.
Qed.

Lemma unpack3_cases (v : value) :
  (exists a b c, unpack3 v = Ret (a, b, c)
                 ∧ component 0 v = Some a ∧ component 1 v = Some b)
  ∨ (exists e, unpack3 v = Throw e).
Proof.
  destruct v as [| | | | |l|l| | |]; cbn; eauto;
    destruct l as [| a [| b [| c [| d l]]]]; cbn; eauto 10.
Qed.

Lemma max_memory_cases (n budget : value) :
  (exists d, LoadBAGELModel.max_memory n budget = Ret (VIntDict d))
  ∨ (exists e, LoadBAGELModel.max_memory n budget = Throw e).
Proof. destruct n; cbn; eauto. Qed.

Ltac unfold_nodes :=
  unfold dispatch, node_of, function_body,
    ImageGeneration_class, ImageThinkGeneration_class, ImageEditing_class,
    ImageThinkEditing_class, ImageUnderstanding_class,
    ImageGeneration.generate, ImageThinkGeneration.generate,
    ImageEditing.editing, ImageThinkEditing.editing,
    ImageUnderstanding.understanding,
    mbind, prog_bind, mret, prog_ret.

Ltac unfold_loader :=
  unfold LoadBAGELModel.load_model, mbind, prog_bind, mret, prog_ret.

Ltac prog_head p :=
  lazymatch p with
  | ?f _ => prog_head f
  | _ => p
  end.

(** One step through a program: at a library call split on its answer, at
    a test of the language split on the value tested. *)
Ltac ensures_step :=
  lazymatch goal with
  | |- ensures _ (bind _ _) => apply ensures_bind
  | |- ensures _ (finally _ _) => apply ensures_finally
  | |- ensures _ (Vis _ _) => apply ensures_Vis; intros [?|?]
  | |- ensures _ (Ret _) => apply ensures_Ret
  | |- ensures _ (Throw _) => apply ensures_Throw
  | |- ensures _ (os_path_join ?a ?b) =>
      let H := fresh "Hjoin" in
      let Ha := fresh "Hstr" in
      destruct (os_path_join_cases a b) as [(? & Ha & H) | (? & H)];
      rewrite H; clear H;
      try first [ subst a | injection Ha as <- ]
  | |- ensures _ (minus_one ?v) =>
      let H := fresh "Hminus" in
      destruct (minus_one_cases v) as [(? & H) | (? & H)]; rewrite H; clear H
  | |- ensures _ (unpack2 ?v) =>
      let H := fresh "Hunpack" in
      destruct (unpack2_cases v) as [(? & ? & H & ? & ?) | (? & H)];
      rewrite H; clear H
  | |- ensures _ (unpack3 ?v) =>
      let H := fresh "Hunpack" in
      destruct (unpack3_cases v) as [(? & ? & ? & H & ? & ?) | (? & H)];
      rewrite H; clear H
  | |- ensures _ (LoadBAGELModel.max_memory ?n ?b) =>
      let H := fresh "Hmem" in
      destruct (max_memory_cases n b) as [(? & H) | (? & H)]; rewrite H; clear H
  | |- ensures _ (if truthy ?v then _ else _) => destruct (truthy v)
  | |- ensures _ (match ?d !! ?k with Some _ => _ | None => _ end) =>
      let E := fresh "E" in destruct (d !! k) eqn:E
  | |- ensures _ (match ?x with _ => _ end) => destruct x
  | |- ensures _ (let '(_, _) := ?x in _) => destruct x
  | |- ensures _ ?p =>
      let hd := prog_head p in
      unfold hd
  end; cbv beta iota.

Ltac ensures_walk :=
  lazymatch goal with
  | |- ensures ?P _ =>
      let Φ := fresh "Φ" in set (Φ := P); repeat ensures_step; subst Φ
  end.

(** As [ensures_walk], remembering which way each truth test went. *)
Ltac ensures_step_eq :=
  lazymatch goal with
  | |- ensures _ (if truthy ?v then _ else _) =>
      let E := fresh "Etruthy" in destruct (truthy v) eqn:E; cbv beta iota
  | _ => ensures_step
  end.

Ltac ensures_walk_eq :=
  lazymatch goal with
  | |- ensures ?P _ =>
      let Φ := fresh "Φ" in set (Φ := P); repeat ensures_step_eq; subst Φ
  end.

(** ** Parameter capture nodes *)

(** C8. For every string, the prompt capture node and the image-path capture
    node return their input unchanged (as the one-element tuple the host
    expects), calling no library and leaving every state as it was. *)
Theorem capture_nodes_return_input_unchanged :
  forall (text : string) S (h : handler S) (s : S),
    run h (BagelPrompt.input_text (VStr text)) s
      = Outcome (inr (VTuple [VStr text])) s []
    ∧ run h (LoadEditImage.input_image (VStr text)) s
      = Outcome (inr (VTuple [VStr text])) s [].
Proof. intros. split; reflexivity. Qed.

(** ** Hyperparameter assembly *)

Lemma arg_agree (env1 env2 : gmap string value) (skip : string) :
  (forall k, k ≠ skip -> env1 !! k = env2 !! k) ->
  forall k, k ≠ skip -> arg env1 k = arg env2 k.
Proof. intros H k Hk. unfold arg. by rewrite (H k Hk). Qed.

(** C9. Two calls of the Generation node whose inputs differ only in
    image_ratio are the same program: from equal library state they perform
    the same library calls with the same arguments, hence pass the same
    hyperparameter dictionary, and end with the same result. *)
Theorem generation_ignores_image_ratio :
  forall env1 env2 : gmap string value,
    (forall k, k ≠ "image_ratio" -> env1 !! k = env2 !! k) ->
    dispatch Generation env1 = dispatch Generation env2
    ∧ forall S (h : handler S) (s : S),
        run h (dispatch Generation env1) s = run h (dispatch Generation env2) s.
Proof.
  intros env1 env2 H.
  assert (dispatch Generation env1 = dispatch Generation env2) as Heq.
  { pose proof (arg_agree env1 env2 "image_ratio" H) as Ha.
    unfold dispatch, node_of, function_body, ImageGeneration_class,
      ImageGeneration.generate.
    rewrite !Ha by discriminate. reflexivity. }
  split; [exact Heq | intros; by rewrite Heq].
Qed.

Lemma generation_ignores_image_ratio_witness :
  dispatch Generation (<["image_ratio" := VStr "16:9"]> sample_env)
  = dispatch Generation (<["image_ratio" := VStr "4:3"]> sample_env).
Proof.
  apply (generation_ignores_image_ratio
           (<["image_ratio" := VStr "16:9"]> sample_env)
           (<["image_ratio" := VStr "4:3"]> sample_env)).
  intros k Hk. by rewrite !lookup_insert_ne.
Defined.

(** What the table asks of a run: the inferencer is invoked, once, with the
    row's entries, unless a library call made before it raised. *)
Lemma dispatch_ensures_row (v : variant) (r : table_row) (env : gmap string value) :
  spec_table v = Some r ->
  ensures (fun t res =>
             Forall (matches_row r (arg env "cfg_renorm_type")) (inferencer_kwargs t)
             ∧ (length (inferencer_kwargs t) ≤ 1)%nat
             ∧ (forall out, res = inr out -> length (inferencer_kwargs t) = 1%nat)
             ∧ (raised t = [] ->
                  exists kw, inferencer_kwargs t = [kw]
                             ∧ matches_row r (arg env "cfg_renorm_type") kw)
             ∧ (inferencer_kwargs t = [] ->
                  exists e, raised t = [e] ∧ res = inl e))
          (dispatch v env).
Proof.
  intros Hrow.
  destruct v; inversion Hrow; subst r; clear Hrow; unfold_nodes;
    ensures_walk; cbn;
    (split; [ repeat constructor
            | split; [ lia
            | split; [ intros ? [=]; reflexivity
            | split; [ intros Hnone;
                       first [ discriminate Hnone
                             | eexists; split; [ reflexivity | repeat constructor ] ]
                     | intros Hnone;
                       first [ discriminate Hnone
                             | eexists; split; reflexivity ] ] ] ] ]).
Qed.

(** C1. For every call of each of the four image-producing variants, the
    keyword dictionary handed to the inferencer has the entries of the
    variant's row of the table of section 4.3: cfg_interval [0.4, 1.0] for
    Generation and Think-Generation and [0.0, 1.0] for Editing and
    Think-Editing; cfg_renorm_type the user's choice for Generation, "global"
    for Think-Generation, "text_channel" for both editing variants; think=True
    on the two think variants.  And the dictionary is handed over: when no
    library call raises, the run invokes the inferencer, exactly once, with
    such a dictionary (also when the run then fails on the answer); the only
    runs without an invocation are those that a library call made before it
    ended, with that call's exception.  The inferencer is never invoked
    twice, and a call that returns has invoked it. *)
Theorem dispatch_hyper_matches_table :
  forall (v : variant) (r : table_row),
    spec_table v = Some r ->
    forall (env : gmap string value) S (h : handler S) (s : S),
      let t := events (run h (dispatch v env) s) in
      Forall (matches_row r (arg env "cfg_renorm_type")) (inferencer_kwargs t)
      ∧ (length (inferencer_kwargs t) ≤ 1)%nat
      ∧ (forall out, result (run h (dispatch v env) s) = inr out ->
           length (inferencer_kwargs t) = 1%nat)
      ∧ (raised t = [] ->
           exists kw, inferencer_kwargs t = [kw]
                      ∧ matches_row r (arg env "cfg_renorm_type") kw)
      ∧ (inferencer_kwargs t = [] ->
           exists e, raised t = [e]
                     ∧ result (run h (dispatch v env) s) = inl e).
Proof.
  intros v r Hrow env S h s.
  exact (run_ensures _ _ (dispatch_ensures_row v r env Hrow) S h s).
Qed.

(** A Think-Generation call whose inferencer answers without a text: the
    call fails on the answer, and the inferencer was invoked with the row's
    dictionary. *)
Lemma dispatch_hyper_matches_table_witness :
  exists kw,
    inferencer_kwargs
      (events (run (lib_sem image_only_library cpu_machine)
                   (dispatch ThinkGeneration sample_env) fresh_world)) = [kw]
    ∧ matches_row (Row true (0.4, 1.0)%float (Some "global")) (VStr "local") kw.
Proof.
  apply (proj1 (proj2 (proj2 (proj2
           (dispatch_hyper_matches_table ThinkGeneration _ eq_refl
              sample_env _ (lib_sem image_only_library cpu_machine)
              fresh_world))))).
  vm_compute. reflexivity.
Defined.

Lemma understanding_ensures_constant (env : gmap string value) :
  ensures (fun t _ =>
             Forall (fun kw => kw !! "max_think_token_n" = Some (VInt 1000))
                    (inferencer_kwargs t))
          (dispatch Understanding env).
Proof. unfold_nodes; ensures_walk; cbn; repeat constructor. Qed.

(** C3 (what the code does).  The Understanding node hands the inferencer
    max_think_token_n = 1000 in every call, whatever the caller supplied:
    called with max_think_token_n = 500, the one inferencer invocation
    carries 1000. *)
Theorem understanding_passes_constant_max_think_token_n :
  (forall (env : gmap string value) S (h : handler S) (s : S),
     Forall (fun kw => kw !! "max_think_token_n" = Some (VInt 1000))
       (inferencer_kwargs (events (run h (dispatch Understanding env) s))))
  ∧ sample_env !! "max_think_token_n" = Some (VInt 500)
  ∧ (fun kw : gmap string value => kw !! "max_think_token_n")
      <$> inferencer_kwargs
            (events (run (lib_sem lcg_library cpu_machine)
                         (dispatch Understanding sample_env) fresh_world))
    = [Some (VInt 1000)].
Proof.
  split; [| split; vm_compute; reflexivity].
  intros env S h s.
  exact (run_ensures _ _ (understanding_ensures_constant env) S h s).
Qed.

(** ** The host's schema-matching call *)

(** C4 (what the code does).  Called with one keyword per field of its
    schema, the functions of ImageThinkGeneration, ImageEditing and
    ImageThinkEditing are not entered: binding fails on image_ratio, which
    their schemas declare and their parameter lists lack.  The other five
    node functions bind every declared name. *)
Theorem schema_call_binding :
  forall widget : string -> value,
    execute ImageThinkGeneration_class
        (schema_inputs ImageThinkGeneration_class widget)
      = Throw (TypeError "generate() got an unexpected keyword argument 'image_ratio'")
    ∧ execute ImageEditing_class (schema_inputs ImageEditing_class widget)
      = Throw (TypeError "editing() got an unexpected keyword argument 'image_ratio'")
    ∧ execute ImageThinkEditing_class
        (schema_inputs ImageThinkEditing_class widget)
      = Throw (TypeError "editing() got an unexpected keyword argument 'image_ratio'")
    ∧ (fun c => (c.1, binds_schema_call c.2 widget)) <$> NODE_CLASS_MAPPINGS
      = [("LoadBAGELModel", true); ("BagelPrompt", true);
         ("LoadEditImage", true); ("ImageGeneration", true);
         ("ImageThinkGeneration", false); ("ImageEditing", false);
         ("ImageThinkEditing", false); ("ImageUnderstanding", true)].
Proof.
  intros widget.
  split; [vm_compute; reflexivity |].
  split; [vm_compute; reflexivity |].
  split; [vm_compute; reflexivity |].
  vm_compute. reflexivity.
Qed.

(** ** Device-map post-processing *)

Section Colocate.
Context (first_device : value).

(** The loop of the single-device branch, and of the other branch. *)
Let force_all (dm : gmap string value) (k : string) : gmap string value :=
  if decide (is_Some (dm !! k)) then <[k := first_device]> dm
  else <[k := VStr "cuda:0"]> dm.
Let force_assigned (dm : gmap string value) (k : string) : gmap string value :=
  if decide (is_Some (dm !! k)) then <[k := first_device]> dm else dm.

Lemma force_all_lookup (names : list string) :
  NoDup names ->
  forall (dm : gmap string value) (k : string),
    foldl force_all dm names !! k =
    if decide (k ∈ names)
    then Some (if decide (is_Some (dm !! k)) then first_device else VStr "cuda:0")
    else dm !! k.
Proof.
  induction 1 as [| a names Ha _ IH]; intros dm k; cbn [foldl].
  - destruct (decide (k ∈ [])) as [Hin | _]; [by apply elem_of_nil in Hin | done].
  - rewrite IH. destruct (decide (k = a)) as [-> | Hne].
    + destruct (decide (a ∈ names)); [done |].
      destruct (decide (a ∈ a :: names)) as [_ | Hn];
        [| exfalso; apply Hn; apply list_elem_of_here].
      unfold force_all.
      destruct (decide (is_Some (dm !! a))); by rewrite lookup_insert_eq.
    + assert (force_all dm a !! k = dm !! k) as ->.
      { unfold force_all.
        destruct (decide (is_Some (dm !! a))); by rewrite lookup_insert_ne. }
      destruct (decide (k ∈ names)) as [Hin | Hout];
        destruct (decide (k ∈ a :: names)) as [Hin' | Hout']; try done.
      * exfalso. apply Hout'. by apply list_elem_of_further.
      * exfalso. apply elem_of_cons in Hin' as [? | ?]; done.
Qed.

Lemma force_assigned_step (dm : gmap string value) (a k : string) :
  force_assigned dm a !! k =
  if decide (k = a ∧ is_Some (dm !! k)) then Some first_device else dm !! k.
Proof.
  unfold force_assigned.
  destruct (decide (is_Some (dm !! a))) as [Hs | Hs];
    destruct (decide (k = a ∧ is_Some (dm !! k))) as [[-> Hk] | Hn]; try done.
  - apply lookup_insert_eq.
  - rewrite lookup_insert_ne; [done |]. intros ->. by apply Hn.
Qed.

Lemma force_assigned_lookup (names : list string) :
  forall (dm : gmap string value) (k : string),
    foldl force_assigned dm names !! k =
    if decide (k ∈ names ∧ is_Some (dm !! k))
    then Some first_device else dm !! k.
Proof.
  induction names as [| a names IH]; intros dm k; cbn [foldl].
  - destruct (decide (k ∈ [] ∧ is_Some (dm !! k))) as [[Hin _] | _];
      [by apply elem_of_nil in Hin | done].
  - rewrite IH. pose proof (force_assigned_step dm a k) as HF.
    assert (is_Some (force_assigned dm a !! k) <-> is_Some (dm !! k)) as Hs.
    { rewrite HF.
      destruct (decide (k = a ∧ is_Some (dm !! k))) as [[_ Hk] | _]; [| done].
      split; intros _; [exact Hk | by eexists]. }
    destruct (decide (k ∈ names ∧ is_Some (force_assigned dm a !! k)))
      as [[Hin Hk] | Hn1];
      destruct (decide (k ∈ a :: names ∧ is_Some (dm !! k))) as [[Hin' Hk'] | Hn2].
    + done.
    + exfalso. apply Hn2. split; [by apply list_elem_of_further | by apply Hs].
    + rewrite HF.
      destruct (decide (k = a ∧ is_Some (dm !! k))) as [_ | Hn]; [done |].
      exfalso. apply elem_of_cons in Hin' as [-> | Hin'].
      * by apply Hn.
      * apply Hn1. split; [done | by apply Hs].
    + rewrite HF.
      destruct (decide (k = a ∧ is_Some (dm !! k))) as [[-> Hk] | _]; [| done].
      exfalso. apply Hn2. split; [apply list_elem_of_here | done].
Qed.
End Colocate.

Lemma same_device_modules_NoDup : NoDup LoadBAGELModel.same_device_modules.
Proof.
  apply (bool_decide_unpack _). vm_compute. exact I.
Qed.

Lemma colocate_lookup (n : value) (plan : gmap string value) (k : string) :
  k ∈ LoadBAGELModel.same_device_modules ->
  LoadBAGELModel.colocate n plan !! k =
  match plan !! k with
  | Some _ =>
      Some (default (if eq_one n then VStr "cuda:0" else VNone)
                    (plan !! LoadBAGELModel.first_module))
  | None => if eq_one n then Some (VStr "cuda:0") else None
  end.
Proof.
  intros Hk. unfold LoadBAGELModel.colocate.
  destruct (eq_one n).
  - rewrite force_all_lookup by apply same_device_modules_NoDup.
    destruct (decide (k ∈ LoadBAGELModel.same_device_modules)); [| done].
    destruct (plan !! k) eqn:E.
    + destruct (decide (is_Some (Some v))) as [_ | Hn]; [done |].
      exfalso. apply Hn. by eexists.
    + destruct (decide (is_Some (@None value))) as [[? [=]] | _]; done.
  - rewrite force_assigned_lookup.
    destruct (decide (k ∈ LoadBAGELModel.same_device_modules ∧ is_Some (plan !! k)))
      as [[_ [d Hd]] | Hn].
    + by rewrite Hd.
    + destruct (plan !! k) eqn:E; [| done].
      exfalso. apply Hn. split; [done | by eexists].
Qed.

(** C2, as the code has it.  The group has seven names.  When the placement
    plan assigns the first name, every name of the group that the plan
    assigned maps, after the pass, to the device the plan gave the first
    name, whatever the device count.  With exactly one device, a name the
    plan left out maps to "cuda:0", and so does every name of the group when
    the plan left out the first.  With another device count a name the plan
    left out stays out.  So a plan that assigns all seven names leaves them
    on the single device it gave the first. *)
Theorem colocate_assigned_names_follow_first :
  forall (n : value) (plan : gmap string value),
    length LoadBAGELModel.same_device_modules = 7%nat
    ∧ (forall d, plan !! LoadBAGELModel.first_module = Some d ->
         forall k, k ∈ LoadBAGELModel.same_device_modules ->
           is_Some (plan !! k) ->
           LoadBAGELModel.colocate n plan !! k = Some d)
    ∧ (eq_one n = true ->
         forall k, k ∈ LoadBAGELModel.same_device_modules ->
           (plan !! k = None ->
              LoadBAGELModel.colocate n plan !! k = Some (VStr "cuda:0"))
           ∧ (plan !! LoadBAGELModel.first_module = None ->
              LoadBAGELModel.colocate n plan !! k = Some (VStr "cuda:0")))
    ∧ (eq_one n = false ->
         forall k, k ∈ LoadBAGELModel.same_device_modules ->
           plan !! k = None ->
           LoadBAGELModel.colocate n plan !! k = None)
    ∧ ((forall k, k ∈ LoadBAGELModel.same_device_modules -> is_Some (plan !! k)) ->
       co_located LoadBAGELModel.same_device_modules (LoadBAGELModel.colocate n plan)
       ∧ forall k, k ∈ LoadBAGELModel.same_device_modules ->
           LoadBAGELModel.colocate n plan !! k
           = plan !! LoadBAGELModel.first_module).
Proof.
  intros n plan.
  assert (forall d, plan !! LoadBAGELModel.first_module = Some d ->
            forall k, k ∈ LoadBAGELModel.same_device_modules ->
              is_Some (plan !! k) ->
              LoadBAGELModel.colocate n plan !! k = Some d) as Hfollow.
  { intros d Hd k Hk [d' Hd']. by rewrite (colocate_lookup n plan k Hk), Hd', Hd. }
  split; [reflexivity |]. split; [exact Hfollow |]. split; [| split].
  - intros Hone k Hk. rewrite (colocate_lookup n plan k Hk), Hone. split.
    + by intros ->.
    + intros ->. by destruct (plan !! k).
  - intros Hn k Hk Hout. by rewrite (colocate_lookup n plan k Hk), Hout, Hn.
  - intros Hall.
    assert (is_Some (plan !! LoadBAGELModel.first_module)) as [d Hd].
    { apply Hall. apply list_elem_of_here. }
    split.
    + exists d. intros k Hk. by apply (Hfollow d Hd k Hk), Hall.
    + intros k Hk. rewrite Hd. by apply (Hfollow d Hd k Hk), Hall.
Qed.

Lemma colocate_assigned_names_follow_first_witness :
  "vae2llm" ∈ LoadBAGELModel.same_device_modules
  ∧ LoadBAGELModel.colocate (VInt 2)
      {[ "language_model.model.embed_tokens" := VInt 1; "vae2llm" := VInt 0 ]}
      !! "vae2llm"
    = Some (VInt 1).
Proof.
  assert ("vae2llm" ∈ LoadBAGELModel.same_device_modules) as Hin.
  { apply (bool_decide_unpack _). vm_compute. exact I. }
  split; [exact Hin |].
  refine (proj1 (proj2 (colocate_assigned_names_follow_first (VInt 2)
            {[ "language_model.model.embed_tokens" := VInt 1; "vae2llm" := VInt 0 ]}))
            (VInt 1) _ "vae2llm" Hin _).
  - vm_compute. reflexivity.
  - vm_compute. by eexists.
Defined.

(** C2, as claimed, fails.  The group has seven names, not eight; with two
    devices a name the plan left out stays out, and with one device such a
    name goes to "cuda:0" while the first stays where the plan put it. *)
Lemma colocation_fails_on_partial_plans :
  length LoadBAGELModel.same_device_modules ≠ 8%nat
  ∧ ¬ co_located LoadBAGELModel.same_device_modules
        (LoadBAGELModel.colocate (VInt 2)
           {[ "language_model.model.embed_tokens" := VInt 0 ]})
  ∧ ¬ co_located LoadBAGELModel.same_device_modules
        (LoadBAGELModel.colocate (VInt 1)
           {[ "language_model.model.embed_tokens" := VStr "cpu" ]}).
Proof.
  assert ("time_embedder" ∈ LoadBAGELModel.same_device_modules) as Hin.
  { apply (bool_decide_unpack _). vm_compute. exact I. }
  assert ("language_model.model.embed_tokens" ∈ LoadBAGELModel.same_device_modules)
    as Hfirst by apply list_elem_of_here.
  split; [discriminate |]. split.
  - intros [d Hd]. specialize (Hd _ Hin). vm_compute in Hd. discriminate Hd.
  - intros [d Hd]. pose proof (Hd _ Hin) as H1. pose proof (Hd _ Hfirst) as H2.
    vm_compute in H1, H2. congruence.
Qed.

(** ** Result extraction *)

Lemma dispatch_ensures_lookup_error (v : variant) (env : gmap string value) :
  ensures (fun t res =>
             forall d, d ∈ inferencer_results t ->
             forall k, k ∈ extracted_keys v -> d !! k = None ->
             exists k', k' ∈ extracted_keys v ∧ d !! k' = None
                        ∧ res = inl (KeyError k'))
          (dispatch v env).
Proof.
  destruct v; unfold_nodes; ensures_walk; cbn;
    intros d' Hd k Hk Hnone;
    try (by apply elem_of_nil in Hd);
    apply list_elem_of_singleton in Hd as ->;
    first
      [ (* the subscript raised *)
        eexists; split; [| split; [| reflexivity]];
          [ repeat constructor | assumption ]
      | (* every key was there *)
        exfalso;
        repeat (apply elem_of_cons in Hk as [-> | Hk]);
        first [ congruence | by apply elem_of_nil in Hk ] ].
Qed.

(** C10. In a dispatch call whose inferencer answered a mapping that lacks
    a key the variant reads ('image' for the image-producing variants,
    'text' for the think and understanding variants), the function raises
    KeyError on such a key and returns no tuple. *)
Theorem missing_result_key_raises_KeyError :
  forall (v : variant) (env : gmap string value) S (h : handler S) (s : S)
         (d : gmap string value) (k : string),
    d ∈ inferencer_results (events (run h (dispatch v env) s)) ->
    k ∈ extracted_keys v ->
    d !! k = None ->
    exists k', k' ∈ extracted_keys v ∧ d !! k' = None
               ∧ result (run h (dispatch v env) s) = inl (KeyError k').
Proof.
  intros v env S h s d k Hd.
  exact (run_ensures _ _ (dispatch_ensures_lookup_error v env) S h s d Hd k).
Qed.

Lemma missing_result_key_raises_KeyError_witness :
  exists k', k' ∈ extracted_keys ThinkGeneration
             ∧ ({[ "image" := VStr "pixels" ]} : gmap string value) !! k' = None
             ∧ result (run (lib_sem image_only_library cpu_machine)
                           (dispatch ThinkGeneration sample_env) fresh_world)
               = inl (KeyError k').
Proof.
  apply (missing_result_key_raises_KeyError ThinkGeneration sample_env _
           (lib_sem image_only_library cpu_machine) fresh_world
           {[ "image" := VStr "pixels" ]} "text").
  - vm_compute. apply list_elem_of_here.
  - apply list_elem_of_further, list_elem_of_here.
  - vm_compute. reflexivity.
Defined.

(** ** Model loader: all or nothing *)

Lemma load_model_ensures (model_path : value) :
  ensures (fun t res =>
     (raised t ≠ [] -> exists e, res = inl e)
     ∧ (forall e, e ∈ config_read_errors t -> res = inl e)
     ∧ (forall p, model_path = VStr p ->
          config_reads t `prefix_of`
            [("Qwen2Config.from_json_file", [VStr (path_join p "llm_config.json")]);
             ("SiglipVisionConfig.from_json_file", [VStr (path_join p "vit_config.json")])])
     ∧ (forall b, res = inr b ->
          raised t = []
          ∧ exists model vae_model tokenizer vae_transform vit_transform
                   new_token_ids ae added,
              b = VTuple [model; vae_model; tokenizer; vae_transform;
                          vit_transform; new_token_ids]
              ∧ method_answers "eval" t = [model]
              ∧ answers_of "load_ae" t = [ae]
              ∧ component 0 ae = Some vae_model
              ∧ answers_of "add_special_tokens" t = [added]
              ∧ component 0 added = Some tokenizer
              ∧ component 1 added = Some new_token_ids
              ∧ answers_of "ImageTransform" t = [vae_transform; vit_transform]
              ∧ length (config_reads t) = 2%nat
              ∧ length (answers_of "load_checkpoint_and_dispatch" t) = 1%nat))
    (LoadBAGELModel.load_model model_path).
Proof.
  unfold_loader. ensures_walk.
  all: cbv beta; split; [| split; [| split]].
  (* a call raised: no bundle *)
  all: try (intros _; eexists; reflexivity).
  all: try (intros Hraised; exfalso; apply Hraised; vm_compute; reflexivity).
  (* a configuration read raised: that error is the result *)
  all: try (intros err Herr; vm_compute in Herr;
            first [ by apply elem_of_nil in Herr
                  | apply list_elem_of_singleton in Herr as ->; reflexivity ]).
  (* the files read *)
  all: try (intros p Hp; try injection Hp as <-; vm_compute; eexists; reflexivity).
  (* a returned bundle is complete *)
  all: try (intros ? [=]; fail).
  intros b [= <-]; split; [vm_compute; reflexivity |];
    do 8 eexists; repeat split; first [ reflexivity | eassumption ].
Qed.

(** C7. Whatever the libraries answer, [load_model] is all or nothing.
    If any library call raised there is no bundle, only an error; if the
    read of a configuration file raised (the file is absent or malformed)
    the result is that very error; the two reads are of llm_config.json and
    vit_config.json in the model directory.  A call that returns a value
    returns the six-element bundle, made of the answers of calls that all
    succeeded: the dispatched model in inference mode, the autoencoder, the
    extended tokenizer, the two image transforms and the new token ids. *)
Theorem load_model_all_or_nothing :
  forall (model_path : value) S (h : handler S) (s : S),
    let t := events (run h (LoadBAGELModel.load_model model_path) s) in
    let res := result (run h (LoadBAGELModel.load_model model_path) s) in
    (raised t ≠ [] -> exists e, res = inl e)
    ∧ (forall e, e ∈ config_read_errors t -> res = inl e)
    ∧ (forall p, model_path = VStr p ->
         config_reads t `prefix_of`
           [("Qwen2Config.from_json_file", [VStr (path_join p "llm_config.json")]);
            ("SiglipVisionConfig.from_json_file", [VStr (path_join p "vit_config.json")])])
    ∧ (forall b, res = inr b ->
         raised t = []
         ∧ exists model vae_model tokenizer vae_transform vit_transform
                  new_token_ids ae added,
             b = VTuple [model; vae_model; tokenizer; vae_transform;
                         vit_transform; new_token_ids]
             ∧ method_answers "eval" t = [model]
             ∧ answers_of "load_ae" t = [ae]
             ∧ component 0 ae = Some vae_model
             ∧ answers_of "add_special_tokens" t = [added]
             ∧ component 0 added = Some tokenizer
             ∧ component 1 added = Some new_token_ids
             ∧ answers_of "ImageTransform" t = [vae_transform; vit_transform]
             ∧ length (config_reads t) = 2%nat
             ∧ length (answers_of "load_checkpoint_and_dispatch" t) = 1%nat).
Proof.
  intros model_path S h s.
  exact (run_ensures _ _ (load_model_ensures model_path) S h s).
Qed.

(** With vit_config.json missing from the directory the loader raises. *)
Lemma load_model_all_or_nothing_witness :
  result (run (disk_sem ["./BAGEL-7B-MoT/llm_config.json"] 1 ∅)
              (LoadBAGELModel.load_model (VStr "./BAGEL-7B-MoT")) tt)
  = inl (FileNotFoundError "./BAGEL-7B-MoT/vit_config.json").
Proof.
  apply (proj1 (proj2 (load_model_all_or_nothing (VStr "./BAGEL-7B-MoT") _
                         (disk_sem ["./BAGEL-7B-MoT/llm_config.json"] 1 ∅) tt))).
  vm_compute. apply list_elem_of_here.
Defined.

(** With both files there, the sample libraries give a six-element bundle. *)
Lemma load_model_complete_example :
  exists model vae_model tokenizer vae_transform vit_transform new_token_ids,
    result (run (disk_sem ["./BAGEL-7B-MoT/llm_config.json";
                           "./BAGEL-7B-MoT/vit_config.json"] 1 ∅)
                (LoadBAGELModel.load_model (VStr "./BAGEL-7B-MoT")) tt)
    = inr (VTuple [model; vae_model; tokenizer; vae_transform; vit_transform;
                   new_token_ids]).
Proof. do 6 eexists. vm_compute. reflexivity. Qed.

(** ** Seeding *)

Lemma logged_same_observation {S A} (x : effect * response) (o1 o2 : outcome S A) :
  same_observation o1 o2 -> same_observation (logged x o1) (logged x o2).
Proof.
  intros (He & Hr & Hf). unfold same_observation, logged. cbn.
  split; [by rewrite He | split; [exact Hr | exact Hf]].
Qed.

Lemma bind_same_observation {S A B} (h : handler S) (m : prog A)
  (f : A -> prog B) (s1 s2 : S) :
  same_observation (run h m s1) (run h m s2) ->
  same_observation (run h (bind m f) s1) (run h (bind m f) s2).
Proof.
  intros (He & Hr & Hf). rewrite !run_bind. rewrite <- Hr, <- He.
  destruct (result (run h m s1)) as [e | a] eqn:E.
  - repeat split. intros a [=].
  - rewrite <- (Hf a eq_refl). repeat split.
Qed.

(** The states of the invocations, against the events of the run. *)
Lemma invocation_states_length {S A} (h : handler S) (p : prog A) (s : S) :
  length (invocation_states h p s)
  = length (inferencer_kwargs (events (run h p s))).
Proof.
  revert s. induction p as [a | e | ef k IH]; intros s; [reflexivity.. |].
  cbn [invocation_states run]. specialize (IH (h ef s).1 (h ef s).2).
  destruct (h ef s) as [r s']. cbn [fst snd] in *.
  unfold inferencer_kwargs in *. cbn [logged events omap list_omap fst].
  destruct ef as [| self name args kwargs | | | |]; try exact IH.
  destruct (String.eqb name "__call__"); cbn [length]; by rewrite IH.
Qed.

Lemma invocation_states_bind {S A B} (h : handler S) (m : prog A)
  (f : A -> prog B) (s : S) :
  invocation_states h (bind m f) s =
  (invocation_states h m s ++
   match result (run h m s) with
   | inl _ => []
   | inr a => invocation_states h (f a) (final (run h m s))
   end)%list.
Proof.
  revert s. induction m as [a | e | ef k IH]; intros s; [reflexivity.. |].
  cbn [bind invocation_states run]. rewrite IH.
  destruct (h ef s) as [r s']. cbn [fst snd logged result final].
  destruct ef as [| self name args kwargs | | | |]; try reflexivity.
  destruct (String.eqb name "__call__"); reflexivity.
Qed.

Lemma invocation_states_silent {S A} (h : handler S) (p : prog A) (s : S) :
  ensures (fun t _ => inferencer_kwargs t = []) p ->
  invocation_states h p s = [].
Proof.
  intros Hsilent. apply nil_length_inv.
  by rewrite invocation_states_length, (Hsilent S h s).
Qed.

Lemma seed_preamble_silent (seed : value) :
  ensures (fun t _ => inferencer_kwargs t = []) (seed_preamble seed).
Proof. unfold seed_preamble. ensures_walk. all: reflexivity. Qed.

(** A dispatch call, as a program: make the inferencer, reseed, invoke, and
    read the answer without calling any library. *)
Lemma dispatch_program (v : variant) (env : gmap string value) :
  exists (kw : gmap string value) (extract : value -> prog value),
    dispatch v env
    = bind (InterleaveInferencer
              (arg env "model") (arg env "vae_model") (arg env "tokenizer")
              (arg env "vae_transform") (arg env "vit_transform")
              (arg env "new_token_ids"))
        (fun inf =>
           bind (seed_preamble (arg env "seed"))
             (fun _ => bind (invoke inf kw) extract))
    ∧ forall out, ensures (fun t _ => t = []) (extract out).
Proof.
  destruct v; unfold_nodes; cbv zeta; do 2 eexists;
    (split; [ reflexivity | intros out; cbv beta; ensures_walk; reflexivity ]).
Qed.

Section Reseeding.
Context {gen : Type} (L : library gen) (m : machine).

Ltac seed_cases seed :=
  let E1 := fresh "Epy" in
  let E2 := fresh "Enp" in
  let E3 := fresh "Ecpu" in
  let E4 := fresh "Ecuda" in
  let E5 := fresh "Havail" in
  destruct (random_seed L seed) eqn:E1, (np_random_seed L seed) eqn:E2,
    (torch_manual_seed L seed) eqn:E3, (torch_cuda_manual_seed L seed) eqn:E4,
    (cuda_available m) eqn:E5;
  repeat (progress (cbn; rewrite ?E1, ?E2, ?E3, ?E4, ?E5)).

Lemma seed_preamble_erases_prior (seed : value) (w1 w2 : world gen) :
  let p1 := run (lib_sem L m) (seed_preamble seed) w1 in
  let p2 := run (lib_sem L m) (seed_preamble seed) w2 in
  events p1 = events p2
  ∧ result p1 = result p2
  ∧ (forall a, result p1 = inr a ->
       py_random (final p1) = py_random (final p2)
       ∧ np_random (final p1) = np_random (final p2)
       ∧ torch_cpu (final p1) = torch_cpu (final p2)
       ∧ (same_machine m w1 w2 -> final p1 = final p2)).
Proof.
  destruct w1 as [py1 np1 cpu1 cuda1 det1 bench1],
           w2 as [py2 np2 cpu2 cuda2 det2 bench2].
  unfold seed_preamble, call, assign, perform, mbind, prog_bind, same_machine.
  seed_cases seed;
    (split; [reflexivity | split; [reflexivity |]]);
    intros a [=]; repeat split; intros Hsame;
    try reflexivity; try (cbn in Hsame; rewrite (Hsame eq_refl); reflexivity).
Qed.

Lemma seed_preamble_seeds_literally (seed : value) (w : world gen) :
  let p := run (lib_sem L m) (seed_preamble seed) w in
  forall a, result p = inr a ->
    random_seed L seed = inr (py_random (final p))
    ∧ np_random_seed L seed = inr (np_random (final p))
    ∧ torch_manual_seed L seed = inr (torch_cpu (final p))
    ∧ (cuda_available m = true ->
       Forall (fun g => torch_cuda_manual_seed L seed = inr g)
              (torch_cuda (final p)))
    ∧ cudnn_deterministic (final p) = VBool true
    ∧ cudnn_benchmark (final p) = VBool false.
Proof.
  destruct w as [py np cpu cuda det bench].
  unfold seed_preamble, call, assign, perform, mbind, prog_bind.
  seed_cases seed; intros a [=]; repeat split; try discriminate.
  intros _. by apply Forall_replicate.
Qed.

Lemma run_Vis {S A} (h : handler S) (ef : effect) (k : response -> prog A) (s : S) :
  run h (Vis ef k) s = logged (ef, (h ef s).1) (run h (k (h ef s).1) (h ef s).2).
Proof. cbn. by destruct (h ef s). Qed.

Lemma lib_sem_new_inferencer (kwargs : gmap string value) (w : world gen) :
  lib_sem L m (ECall "InterleaveInferencer" [] kwargs) w
  = (inr (VObject "InterleaveInferencer" kwargs), w).
Proof. by destruct w. Qed.

(** A dispatch call is: make the inferencer, reseed, then the rest. *)
Lemma dispatch_shape (v : variant) (env : gmap string value) :
  exists (made : effect * response) (rest : value -> prog value),
    (forall w, run (lib_sem L m) (dispatch v env) w
               = logged made
                   (run (lib_sem L m)
                        (bind (seed_preamble (arg env "seed")) rest) w))
    ∧ seed_calls [made] = []
    ∧ forall x, ensures (fun t _ => seed_calls t = []) (rest x).
Proof.
  destruct v; unfold_nodes; unfold InterleaveInferencer, call, perform;
    cbn [bind]; eexists; eexists; (split;
      [ intros w; rewrite run_Vis, lib_sem_new_inferencer; cbn [fst snd bind];
        reflexivity
      | split; [ reflexivity |];
        intros x; unfold invoke, method, perform; ensures_walk; reflexivity ]).
Qed.

Lemma dispatch_seed_calls (v : variant) (env : gmap string value) (w : world gen) :
  seed_calls (events (run (lib_sem L m) (dispatch v env) w))
  = seed_calls (events (run (lib_sem L m) (seed_preamble (arg env "seed")) w)).
Proof.
  destruct (dispatch_shape v env) as (made & rest & Hrun & Hmade & Hrest).
  rewrite Hrun, run_bind.
  set (p := run (lib_sem L m) (seed_preamble (arg env "seed")) w).
  change (events (logged made ?o)) with ([made] ++ events o)%list.
  unfold seed_calls at 1. rewrite omap_app. fold (seed_calls [made]).
  rewrite Hmade. cbn [app].
  destruct (result p) as [e | a]; cbn [events]; [reflexivity |].
  rewrite omap_app. fold (seed_calls (events p)).
  pose proof (Hrest a _ (lib_sem L m) (final p)) as Hnone. cbv beta in Hnone.
  unfold seed_calls in Hnone at 1. rewrite Hnone. by rewrite app_nil_r.
Qed.

Lemma dispatch_erases_prior (v : variant) (env : gmap string value)
  (w1 w2 : world gen) :
  same_machine m w1 w2 ->
  same_observation (run (lib_sem L m) (dispatch v env) w1)
                   (run (lib_sem L m) (dispatch v env) w2).
Proof.
  intros Hsame. destruct (dispatch_shape v env) as (made & rest & Hrun & _ & _).
  rewrite !Hrun. apply logged_same_observation, bind_same_observation.
  destruct (seed_preamble_erases_prior (arg env "seed") w1 w2) as (He & Hr & Hf).
  split; [exact He | split; [exact Hr |]].
  intros a Ha. by apply (Hf a Ha).
Qed.
(** When the libraries accept the seed, the preamble returns, having called
    every seeding function of the machine on it, and leaves each generator
    as the library seeds it. *)
Lemma seed_preamble_accepted (seed : value) (w : world gen) (g1 g2 g3 : gen) :
  random_seed L seed = inr g1 ->
  np_random_seed L seed = inr g2 ->
  torch_manual_seed L seed = inr g3 ->
  (cuda_available m = true -> exists g4, torch_cuda_manual_seed L seed = inr g4) ->
  let p := run (lib_sem L m) (seed_preamble seed) w in
  result p = inr VNone
  ∧ seed_calls (events p)
    = (fun fn => (fn, [seed]))
        <$> (if cuda_available m then seeding_functions
             else take 3 seeding_functions)
  ∧ py_random (final p) = g1
  ∧ np_random (final p) = g2
  ∧ torch_cpu (final p) = g3
  ∧ (cuda_available m = true ->
     Forall (fun g => torch_cuda_manual_seed L seed = inr g)
            (torch_cuda (final p)))
  ∧ (cuda_available m = false -> torch_cuda (final p) = torch_cuda w)
  ∧ cudnn_deterministic (final p) = VBool true
  ∧ cudnn_benchmark (final p) = VBool false.
Proof.
  intros Epy Enp Ecpu Hcuda.
  destruct w as [py np cpu cuda det bench].
  unfold seed_preamble, call, assign, perform, mbind, prog_bind.
  destruct (cuda_available m) eqn:Havail;
    [ destruct (Hcuda eq_refl) as [g4 Ecuda] | clear Hcuda ];
    repeat (progress (cbn; rewrite ?Epy, ?Enp, ?Ecpu, ?Ecuda, ?Havail));
    repeat split; try done.
  intros _. by apply Forall_replicate.
Qed.

(** The inferencer is invoked when the preamble has returned, once, in the
    state the preamble left. *)
Lemma dispatch_invocation_states (v : variant) (env : gmap string value)
  (w : world gen) :
  invocation_states (lib_sem L m) (dispatch v env) w
  = match result (run (lib_sem L m) (seed_preamble (arg env "seed")) w) with
    | inl _ => []
    | inr _ => [final (run (lib_sem L m) (seed_preamble (arg env "seed")) w)]
    end.
Proof.
  destruct (dispatch_program v env) as (kw & extract & -> & Hsilent).
  rewrite invocation_states_bind.
  unfold InterleaveInferencer at 1 2 3, call, perform.
  cbn [invocation_states]. rewrite !run_Vis, !lib_sem_new_inferencer.
  cbn [fst snd invocation_states run logged result final app].
  rewrite invocation_states_bind.
  rewrite (invocation_states_silent _ _ _ (seed_preamble_silent _)).
  cbn [app].
  destruct (result (run (lib_sem L m) (seed_preamble (arg env "seed")) w))
    as [e | a]; [reflexivity |].
  rewrite invocation_states_bind.
  unfold invoke at 1 2 3, method, perform.
  cbn [invocation_states String.eqb Ascii.eqb Bool.eqb].
  set (w' := final (run (lib_sem L m) (seed_preamble (arg env "seed")) w)).
  rewrite run_Vis.
  destruct (lib_sem L m _ w') as [[e | out] w''];
    cbn [fst snd invocation_states run logged result final app];
    [ reflexivity |].
  f_equal. apply invocation_states_silent. intros S' h' s'.
  by rewrite (Hsilent out S' h' s').
Qed.

Lemma dispatch_invoked_after_preamble (v : variant) (env : gmap string value)
  (w : world gen) :
  result (run (lib_sem L m) (seed_preamble (arg env "seed")) w) = inr VNone ->
  invocation_states (lib_sem L m) (dispatch v env) w
  = [final (run (lib_sem L m) (seed_preamble (arg env "seed")) w)].
Proof. intros Hret. by rewrite dispatch_invocation_states, Hret. Qed.

Lemma run_silent_final {S A} (h : handler S) (p : prog A) (s : S) :
  ensures (fun t _ => t = []) p -> final (run h p s) = s.
Proof.
  intros Hsilent. specialize (Hsilent S h s). cbv beta in Hsilent.
  destruct p as [a | e | ef k]; [reflexivity.. |].
  cbn in Hsilent. destruct (h ef s) as [r s']. discriminate Hsilent.
Qed.

Lemma lib_sem_invoke (made kw : gmap string value) (w : world gen) :
  lib_sem L m (EMethod (VObject "InterleaveInferencer" made) "__call__" [] kw) w
  = inferencer L made kw w.
Proof. by destruct w. Qed.

(** Without CUDA the preamble leaves the CUDA generators alone, however it
    ends. *)
Lemma seed_preamble_keeps_cuda (seed : value) (w : world gen) :
  cuda_available m = false ->
  torch_cuda (final (run (lib_sem L m) (seed_preamble seed) w)) = torch_cuda w.
Proof.
  intros Hnone. destruct w as [py np cpu cuda det bench].
  unfold seed_preamble, call, assign, perform, mbind, prog_bind.
  seed_cases seed; first [ reflexivity | congruence ].
Qed.

(** Nor does the rest of a dispatch call touch them, when the inferencer
    does not. *)
Lemma dispatch_keeps_cuda (v : variant) (env : gmap string value)
  (w : world gen) :
  cuda_available m = false ->
  (forall made kw w', torch_cuda (inferencer L made kw w').2 = torch_cuda w') ->
  torch_cuda (final (run (lib_sem L m) (dispatch v env) w)) = torch_cuda w.
Proof.
  intros Hnone Hkeep.
  destruct (dispatch_program v env) as (kw & extract & -> & Hsilent).
  unfold InterleaveInferencer, call, perform. cbn [bind].
  rewrite run_Vis, lib_sem_new_inferencer. cbn [fst snd logged final bind].
  rewrite run_bind.
  pose proof (seed_preamble_keeps_cuda (arg env "seed") w Hnone) as Hpre.
  destruct (result (run (lib_sem L m) (seed_preamble (arg env "seed")) w))
    as [e | a]; cbn [final]; [exact Hpre |].
  rewrite <- Hpre.
  set (w' := final (run (lib_sem L m) (seed_preamble (arg env "seed")) w)).
  unfold invoke, method, perform. cbn [bind].
  rewrite run_Vis, lib_sem_invoke. cbn [logged final].
  match goal with
  | |- context [inferencer L ?made kw w'] => rewrite <- (Hkeep made kw w')
  end.
  destruct (inferencer L _ kw w') as [[e | out] w'']; cbn [fst snd bind].
  - reflexivity.
  - by rewrite (run_silent_final _ _ _ (Hsilent out)).
Qed.

End Reseeding.

Lemma dispatch_ensures_literal_seed (v : variant) (env : gmap string value) :
  ensures (fun t res =>
             Forall (fun c => c.2 = [arg env "seed"]) (seed_calls t)
             ∧ (seed_calls t).*1 `prefix_of` seeding_functions
             ∧ (forall b, res = inr b ->
                  take 3 (seed_calls t).*1 = take 3 seeding_functions))
          (dispatch v env).
Proof.
  destruct v; unfold_nodes; generalize (arg env "seed"); intros seed;
    ensures_walk.
  all: cbv beta; split; [| split].
  all: try (intros ? [=]; fail).
  all: try (intros _ _; vm_compute; reflexivity).
  all: try (vm_compute; eexists; reflexivity).
  all: vm_compute; repeat constructor.
Qed.

(** Every seeding function of the machine has been called, on the seed, in
    a run in which no library call raised and in a run that reached the
    inferencer. *)
Lemma dispatch_ensures_full_reseed (v : variant) (env : gmap string value) :
  ensures (fun t _ =>
             raised t = [] ∨ inferencer_kwargs t ≠ [] ->
             exists a,
               answers_of "torch.cuda.is_available" t = [a]
               ∧ seed_calls t
                 = (fun fn => (fn, [arg env "seed"]))
                     <$> (if truthy a then seeding_functions
                          else take 3 seeding_functions))
          (dispatch v env).
Proof.
  destruct v; unfold_nodes; generalize (arg env "seed"); intros seed;
    unfold InterleaveInferencer, seed_preamble, invoke; ensures_walk_eq.
  all: cbv beta.
  all: first
    [ solve [ intros [Hquiet | Hinvoked];
              [ vm_compute in Hquiet; discriminate Hquiet
              | exfalso; apply Hinvoked; vm_compute; reflexivity ] ]
    | intros _; eexists; split; [ vm_compute; reflexivity |];
      match goal with E : truthy _ = _ |- _ => rewrite E end;
      vm_compute; reflexivity ].
Qed.

(** C5. Two calls of a dispatch node with the same seed and inputs, from
    whatever states the process-wide generators were left in (the second
    call finds what the first left), perform the same reseed sequence.  The
    reseeding is done: when the libraries accept the seed, each call hands it
    to every seeding function of the machine and then invokes the inferencer,
    once, in a state whose general-purpose, numeric-array and model-framework
    generators are the library's seedings of that value; so in both calls
    these generators yield the same values downstream.  Whatever the
    libraries make of the seed, the two calls invoke the inferencer equally
    often, in states that agree on these three generators, and on everything
    when the machine has CUDA.  When the CUDA
    generators the preamble does not touch are the same as well (with CUDA
    it reseeds them all), the two calls find the same state at the
    invocation, make the same library calls, get the same answers and end
    with the same result.  This holds of a call and the next one in
    succession on a machine with CUDA, and on any machine when the
    inferencer leaves the CUDA generators as it found them. *)
Theorem same_seed_same_reseeds_and_draws :
  forall gen (L : library gen) (m : machine) (v : variant)
         (env : gmap string value) (w1 w2 : world gen),
    let seed := arg env "seed" in
    let o1 := run (lib_sem L m) (dispatch v env) w1 in
    let o2 := run (lib_sem L m) (dispatch v env) w2 in
    let p1 := run (lib_sem L m) (seed_preamble seed) w1 in
    let p2 := run (lib_sem L m) (seed_preamble seed) w2 in
    seed_calls (events o1) = seed_calls (events o2)
    ∧ Forall2 (fun wa wb : world gen =>
                 py_random wa = py_random wb
                 ∧ np_random wa = np_random wb
                 ∧ torch_cpu wa = torch_cpu wb
                 ∧ (cuda_available m = true -> wa = wb))
              (invocation_states (lib_sem L m) (dispatch v env) w1)
              (invocation_states (lib_sem L m) (dispatch v env) w2)
    ∧ (forall g1 g2 g3 : gen,
         random_seed L seed = inr g1 ->
         np_random_seed L seed = inr g2 ->
         torch_manual_seed L seed = inr g3 ->
         (cuda_available m = true ->
          exists g4, torch_cuda_manual_seed L seed = inr g4) ->
         seed_calls (events o1)
           = (fun fn => (fn, [seed]))
               <$> (if cuda_available m then seeding_functions
                    else take 3 seeding_functions)
         ∧ exists wa wb : world gen,
             invocation_states (lib_sem L m) (dispatch v env) w1 = [wa]
             ∧ invocation_states (lib_sem L m) (dispatch v env) w2 = [wb]
             ∧ py_random wa = g1 ∧ np_random wa = g2 ∧ torch_cpu wa = g3
             ∧ py_random wb = g1 ∧ np_random wb = g2 ∧ torch_cpu wb = g3
             ∧ (forall n,
                  draws (next_value L) n (py_random wa)
                    = draws (next_value L) n (py_random wb)
                  ∧ draws (next_value L) n (np_random wa)
                    = draws (next_value L) n (np_random wb)
                  ∧ draws (next_value L) n (torch_cpu wa)
                    = draws (next_value L) n (torch_cpu wb))
             ∧ (same_machine m w1 w2 -> wa = wb))
    ∧ (forall a, result p1 = inr a ->
         result p2 = inr a
         ∧ forall n,
             draws (next_value L) n (py_random (final p1))
               = draws (next_value L) n (py_random (final p2))
             ∧ draws (next_value L) n (np_random (final p1))
               = draws (next_value L) n (np_random (final p2))
             ∧ draws (next_value L) n (torch_cpu (final p1))
               = draws (next_value L) n (torch_cpu (final p2)))
    ∧ (same_machine m w1 w2 -> same_observation o1 o2)
    ∧ (cuda_available m = true
       ∨ (forall made kw w,
            torch_cuda (inferencer L made kw w).2 = torch_cuda w) ->
       same_observation o1 (run (lib_sem L m) (dispatch v env) (final o1))).
Proof.
  intros gen L m v env w1 w2 seed o1 o2 p1 p2. subst seed.
  destruct (seed_preamble_erases_prior L m (arg env "seed") w1 w2)
    as (He & Hr & Hf).
  split; [| split; [| split; [| split; [| split]]]].
  - unfold o1, o2. rewrite !dispatch_seed_calls. by rewrite He.
  - rewrite !dispatch_invocation_states, <- Hr.
    destruct (result (run (lib_sem L m) (seed_preamble (arg env "seed")) w1))
      as [e | a] eqn:Ha; constructor; [| constructor].
    destruct (Hf a eq_refl) as (Hpy & Hnp & Hcpu & Hfinal).
    do 3 (split; [assumption |]).
    intros Havail. apply Hfinal. intros Hnone. by rewrite Havail in Hnone.
  - intros g1 g2 g3 Epy Enp Ecpu Ecuda.
    destruct (seed_preamble_accepted L m (arg env "seed") w1 g1 g2 g3
                Epy Enp Ecpu Ecuda)
      as (Hret1 & Hcalls & Hpy1 & Hnp1 & Hcpu1 & _).
    destruct (seed_preamble_accepted L m (arg env "seed") w2 g1 g2 g3
                Epy Enp Ecpu Ecuda)
      as (Hret2 & _ & Hpy2 & Hnp2 & Hcpu2 & _).
    split; [unfold o1; by rewrite dispatch_seed_calls |].
    exists (final p1), (final p2).
    split; [by apply dispatch_invoked_after_preamble |].
    split; [by apply dispatch_invoked_after_preamble |].
    do 6 (split; [assumption |]).
    split.
    + intros n. unfold p1, p2. by rewrite Hpy1, Hpy2, Hnp1, Hnp2, Hcpu1, Hcpu2.
    + intros Hsame. destruct (Hf _ Hret1) as (_ & _ & _ & Hfinal).
      by apply Hfinal.
  - intros a Ha. split; [unfold p2; by rewrite <- Hr |].
    destruct (Hf a Ha) as (Hpy & Hnp & Hcpu & _).
    intros n. unfold p1, p2. by rewrite Hpy, Hnp, Hcpu.
  - apply dispatch_erases_prior.
  - intros [Havail | Hkeep]; apply dispatch_erases_prior; intros Hnone.
    + by rewrite Havail in Hnone.
    + symmetry. by apply dispatch_keeps_cuda.
Qed.

(** Two Think-Editing calls with seed 0, the second from used generators:
    each invokes the inferencer once, with all three generators at the
    library's seeding of 0, and the two calls end the same; so do a call
    and the next one, made from the state the first left. *)
Lemma same_seed_same_reseeds_and_draws_witness :
  same_machine cpu_machine fresh_world used_world
  ∧ (exists wa wb : world Z,
       invocation_states (lib_sem lcg_library cpu_machine)
                         (dispatch ThinkEditing sample_env) fresh_world = [wa]
       ∧ invocation_states (lib_sem lcg_library cpu_machine)
                           (dispatch ThinkEditing sample_env) used_world = [wb]
       ∧ py_random wa = 0 ∧ np_random wa = 0 ∧ torch_cpu wa = 0
       ∧ py_random wb = 0 ∧ np_random wb = 0 ∧ torch_cpu wb = 0)
  ∧ result (run (lib_sem lcg_library cpu_machine)
                (dispatch ThinkEditing sample_env) fresh_world)
    = result (run (lib_sem lcg_library cpu_machine)
                  (dispatch ThinkEditing sample_env) used_world)
  ∧ (let o1 := run (lib_sem lcg_library cpu_machine)
                   (dispatch ThinkEditing sample_env) fresh_world in
     result o1
     = result (run (lib_sem lcg_library cpu_machine)
                   (dispatch ThinkEditing sample_env) (final o1))).
Proof.
  assert (same_machine cpu_machine fresh_world used_world) as Hsame
    by (intros _; reflexivity).
  assert (random_seed lcg_library (arg sample_env "seed") = inr 0) as Epy
    by (vm_compute; reflexivity).
  assert (np_random_seed lcg_library (arg sample_env "seed") = inr 0) as Enp
    by (vm_compute; reflexivity).
  assert (torch_manual_seed lcg_library (arg sample_env "seed") = inr 0) as Ecpu
    by (vm_compute; reflexivity).
  assert (cuda_available cpu_machine = true ->
          exists g4, torch_cuda_manual_seed lcg_library (arg sample_env "seed")
                     = inr g4) as Ecuda
    by (intros [=]).
  assert (forall made kw w,
            torch_cuda (inferencer lcg_library made kw w).2 = torch_cuda w)
    as Hkeep by (intros made kw w; reflexivity).
  destruct (same_seed_same_reseeds_and_draws Z lcg_library cpu_machine
              ThinkEditing sample_env fresh_world used_world)
    as (_ & _ & Hseeded & _ & Hobs & Hnext).
  destruct (Hseeded 0 0 0 Epy Enp Ecpu Ecuda)
    as (_ & wa & wb & Hwa & Hwb & H1 & H2 & H3 & H4 & H5 & H6 & _).
  split; [exact Hsame |]. split; [| split].
  - exists wa, wb. repeat split; assumption.
  - exact (proj1 (proj2 (Hobs Hsame))).
  - exact (proj1 (proj2 (Hnext (or_intror Hkeep)))).
Defined.

(** C6. For every seed in [0, 1000000], 0 included, every dispatch variant
    hands that literal value to each seeding function it calls, in the fixed
    order random, numpy, torch and (with CUDA) the two CUDA seedings, with no
    branch on the seed: whatever the value, a run in which no library call
    raised, and any run that reached the inferencer, has called every
    seeding function of the machine on it, and a call that returns has made
    at least the first three.  Under the reference libraries, when they
    accept the value the inferencer is invoked, once, with each generator
    exactly the library's seeding of that value; so the reseed sequence does
    not depend on the prior state and, the untouched CUDA generators being
    equal, two calls cannot be told apart. *)
Theorem seed_is_used_literally :
  forall z : Z, 0 <= z <= 1000000 ->
  forall (v : variant) (env : gmap string value),
    env !! "seed" = Some (VInt z) ->
    (forall S (h : handler S) (s : S),
       let o := run h (dispatch v env) s in
       Forall (fun c => c.2 = [VInt z]) (seed_calls (events o))
       ∧ (seed_calls (events o)).*1 `prefix_of` seeding_functions
       ∧ (forall b, result o = inr b ->
            take 3 (seed_calls (events o)).*1 = take 3 seeding_functions)
       ∧ (raised (events o) = [] ∨ inferencer_kwargs (events o) ≠ [] ->
            exists a,
              answers_of "torch.cuda.is_available" (events o) = [a]
              ∧ seed_calls (events o)
                = (fun fn => (fn, [VInt z]))
                    <$> (if truthy a then seeding_functions
                         else take 3 seeding_functions)))
    ∧ (forall gen (L : library gen) (m : machine) (w1 w2 : world gen),
         let p := run (lib_sem L m) (seed_preamble (VInt z)) w1 in
         (forall a, result p = inr a ->
            random_seed L (VInt z) = inr (py_random (final p))
            ∧ np_random_seed L (VInt z) = inr (np_random (final p))
            ∧ torch_manual_seed L (VInt z) = inr (torch_cpu (final p))
            ∧ (cuda_available m = true ->
               Forall (fun g => torch_cuda_manual_seed L (VInt z) = inr g)
                      (torch_cuda (final p))))
         ∧ seed_calls (events (run (lib_sem L m) (dispatch v env) w1))
           = seed_calls (events (run (lib_sem L m) (dispatch v env) w2))
         ∧ (same_machine m w1 w2 ->
            same_observation (run (lib_sem L m) (dispatch v env) w1)
                             (run (lib_sem L m) (dispatch v env) w2))
         ∧ (forall g1 g2 g3 : gen,
              random_seed L (VInt z) = inr g1 ->
              np_random_seed L (VInt z) = inr g2 ->
              torch_manual_seed L (VInt z) = inr g3 ->
              (cuda_available m = true ->
               exists g4, torch_cuda_manual_seed L (VInt z) = inr g4) ->
              seed_calls (events (run (lib_sem L m) (dispatch v env) w1))
                = (fun fn => (fn, [VInt z]))
                    <$> (if cuda_available m then seeding_functions
                         else take 3 seeding_functions)
              ∧ exists wa : world gen,
                  invocation_states (lib_sem L m) (dispatch v env) w1 = [wa]
                  ∧ py_random wa = g1 ∧ np_random wa = g2 ∧ torch_cpu wa = g3
                  ∧ (cuda_available m = true ->
                     Forall (fun g => torch_cuda_manual_seed L (VInt z) = inr g)
                            (torch_cuda wa))
                  ∧ (cuda_available m = false -> torch_cuda wa = torch_cuda w1)
                  ∧ cudnn_deterministic wa = VBool true
                  ∧ cudnn_benchmark wa = VBool false)).
Proof.
  intros z _ v env Hseed.
  assert (arg env "seed" = VInt z) as Harg by (unfold arg; by rewrite Hseed).
  split.
  - intros S h s. rewrite <- Harg.
    destruct (run_ensures _ _ (dispatch_ensures_literal_seed v env) S h s)
      as (Hlit & Hprefix & Hthree).
    pose proof (run_ensures _ _ (dispatch_ensures_full_reseed v env) S h s)
      as Hfull.
    cbv zeta. repeat split; assumption.
  - intros gen L m w1 w2 p. split; [| split; [| split]].
    + intros a Ha.
      destruct (seed_preamble_seeds_literally L m (VInt z) w1 a Ha)
        as (H1 & H2 & H3 & H4 & _).
      repeat split; assumption.
    + rewrite !dispatch_seed_calls, Harg.
      by destruct (seed_preamble_erases_prior L m (VInt z) w1 w2) as (-> & _).
    + apply dispatch_erases_prior.
    + intros g1 g2 g3 Epy Enp Ecpu Ecuda.
      destruct (seed_preamble_accepted L m (VInt z) w1 g1 g2 g3
                  Epy Enp Ecpu Ecuda)
        as (Hret & Hcalls & Hpy & Hnp & Hcpu & Hcuda & Hkept & Hdet & Hbench).
      split; [by rewrite dispatch_seed_calls, Harg |].
      exists (final p). split.
      * rewrite (dispatch_invoked_after_preamble L m v env w1);
          rewrite Harg; [reflexivity | exact Hret].
      * repeat split; assumption.
Qed.

(** Seed 0 on a machine with CUDA: all five seeding functions are called
    on 0. *)
Lemma seed_is_used_literally_witness :
  exists a,
    answers_of "torch.cuda.is_available"
      (events (run (lib_sem lcg_library gpu_machine)
                   (dispatch Generation sample_env) fresh_world)) = [a]
    ∧ seed_calls (events (run (lib_sem lcg_library gpu_machine)
                              (dispatch Generation sample_env) fresh_world))
      = (fun fn => (fn, [VInt 0]))
          <$> (if truthy a then seeding_functions else take 3 seeding_functions).
Proof.
  assert (0 <= 0 <= 1000000) as Hrange by (split; discriminate).
  assert (sample_env !! "seed" = Some (VInt 0)) as Hseed
    by (vm_compute; reflexivity).
  assert (raised (events (run (lib_sem lcg_library gpu_machine)
                              (dispatch Generation sample_env) fresh_world))
          = []) as Hquiet by (vm_compute; reflexivity).
  exact (proj2 (proj2 (proj2
           (proj1 (seed_is_used_literally 0 Hrange Generation sample_env Hseed)
              _ (lib_sem lcg_library gpu_machine) fresh_world)))
           (or_introl Hquiet)).
Defined.

(** The reseed sequence of that run, in full. *)
Lemma seed_zero_reseed_sequence :
  seed_calls (events (run (lib_sem lcg_library gpu_machine)
                          (dispatch Generation sample_env) fresh_world))
  = (fun fn => (fn, [VInt 0])) <$> seeding_functions.
Proof. vm_compute. reflexivity. Qed.

(** * Further properties of the node functions *)

Ltac solve_not_in := apply (bool_decide_unpack _); vm_compute; exact I.

(** ** Order of the library calls of a dispatch *)

Lemma dispatch_ensures_call_order (v : variant) (env : gmap string value) :
  ensures (fun t res =>
     (forall cuda : bool,
        (forall a, a ∈ answers_of "torch.cuda.is_available" t -> truthy a = cuda) ->
        call_names t `prefix_of` dispatch_sequence cuda)
     ∧ flag_assignments t `prefix_of`
         [("torch.backends.cudnn.deterministic", VBool true);
          ("torch.backends.cudnn.benchmark", VBool false)]
     ∧ (forall b, res = inr b ->
          exists a, answers_of "torch.cuda.is_available" t = [a]
                    ∧ call_names t = dispatch_sequence (truthy a)))
    (dispatch v env).
Proof.
  destruct v; unfold_nodes; unfold InterleaveInferencer, seed_preamble, invoke;
    ensures_walk_eq.
  all: cbv beta; split; [| split].
  (* the result clause *)
  all: try (intros ? [=]; fail).
  all: try (intros ? _; eexists; split; [vm_compute; reflexivity |];
            match goal with E : truthy _ = _ |- _ => rewrite E end;
            vm_compute; reflexivity).
  (* the flags *)
  all: try (vm_compute; eexists; reflexivity).
  (* the order *)
  all: intros cuda Hcuda;
    first [ match goal with
            | E : truthy ?a = _ |- _ =>
                let H := fresh in
                assert (truthy a = cuda) as H
                  by (apply Hcuda; vm_compute; apply list_elem_of_here);
                rewrite E in H; subst cuda
            end
          | destruct cuda ];
    vm_compute; eexists; reflexivity.
Qed.

(** Every dispatch variant goes through the libraries in one fixed order:
    it constructs the inferencer, reseeds random, numpy and torch, asks for
    CUDA, reseeds CUDA twice when that answered true, sets cudnn
    deterministic to True and benchmark to False, and only then invokes the
    inferencer, after which it calls nothing.  A run that fails stops
    somewhere along this sequence; a run that returns went through all of
    it. *)
Theorem dispatch_call_order :
  forall (v : variant) (env : gmap string value) S (h : handler S) (s : S),
    let t := events (run h (dispatch v env) s) in
    (forall cuda : bool,
       (forall a, a ∈ answers_of "torch.cuda.is_available" t -> truthy a = cuda) ->
       call_names t `prefix_of` dispatch_sequence cuda)
    ∧ flag_assignments t `prefix_of`
        [("torch.backends.cudnn.deterministic", VBool true);
         ("torch.backends.cudnn.benchmark", VBool false)]
    ∧ (forall b, result (run h (dispatch v env) s) = inr b ->
         exists a, answers_of "torch.cuda.is_available" t = [a]
                   ∧ call_names t = dispatch_sequence (truthy a)).
Proof.
  intros v env S h s.
  exact (run_ensures _ _ (dispatch_ensures_call_order v env) S h s).
Qed.

Lemma dispatch_call_order_witness :
  call_names (events (run (lib_sem lcg_library gpu_machine)
                          (dispatch Editing sample_env) fresh_world))
  `prefix_of` dispatch_sequence true.
Proof.
  apply (proj1 (dispatch_call_order Editing sample_env _
                  (lib_sem lcg_library gpu_machine) fresh_world) true).
  intros a Ha. vm_compute in Ha.
  apply list_elem_of_singleton in Ha as ->. reflexivity.
Defined.

(** ** What the inferencer is made of and called with *)

Lemma dispatch_ensures_wiring (v : variant) (env : gmap string value) :
  ensures (fun t _ =>
     kwargs_of "InterleaveInferencer" t
       = [ {[ "model" := arg env "model";
              "vae_model" := arg env "vae_model";
              "tokenizer" := arg env "tokenizer";
              "vae_transform" := arg env "vae_transform";
              "vit_transform" := arg env "vit_transform";
              "new_token_ids" := arg env "new_token_ids" ]} ]
     ∧ args_of "InterleaveInferencer" t = [[]]
     ∧ Forall (fun self => answers_of "InterleaveInferencer" t = [self])
              (invoked_objects t))
    (dispatch v env).
Proof.
  destruct v; unfold_nodes; unfold InterleaveInferencer, seed_preamble, invoke;
    ensures_walk; cbn; repeat constructor.
Qed.

(** Every dispatch call, whatever happens later in it, constructs exactly
    one inferencer, from the six handles it was given and nothing else; and
    the object it invokes is the one that construction answered. *)
Theorem dispatch_invokes_what_it_constructed :
  forall (v : variant) (env : gmap string value) S (h : handler S) (s : S),
    let t := events (run h (dispatch v env) s) in
    kwargs_of "InterleaveInferencer" t
      = [ {[ "model" := arg env "model";
             "vae_model" := arg env "vae_model";
             "tokenizer" := arg env "tokenizer";
             "vae_transform" := arg env "vae_transform";
             "vit_transform" := arg env "vit_transform";
             "new_token_ids" := arg env "new_token_ids" ]} ]
    ∧ args_of "InterleaveInferencer" t = [[]]
    ∧ Forall (fun self => answers_of "InterleaveInferencer" t = [self])
             (invoked_objects t).
Proof.
  intros v env S h s.
  exact (run_ensures _ _ (dispatch_ensures_wiring v env) S h s).
Qed.

Ltac threaded_cases :=
  let k := fresh "k" in
  let Hk := fresh "Hk" in
  intros k Hk; unfold threaded, sampling_inputs in Hk; cbn [app] in Hk;
  repeat (apply elem_of_cons in Hk as [-> | Hk]);
  first [ reflexivity | by apply elem_of_nil in Hk ].

Lemma dispatch_ensures_threaded (v : variant) (env : gmap string value) :
  ensures (fun t res =>
     Forall (fun kw : gmap string value =>
               kw !! "text" = Some (arg env "prompt")
               ∧ forall k, k ∈ threaded v -> kw !! k = Some (arg env k))
            (inferencer_kwargs t)
     ∧ (raised t = [] ->
          exists kw : gmap string value,
            inferencer_kwargs t = [kw]
            ∧ kw !! "text" = Some (arg env "prompt")
            ∧ forall k, k ∈ threaded v -> kw !! k = Some (arg env k))
     ∧ (inferencer_kwargs t = [] -> exists e, raised t = [e] ∧ res = inl e))
    (dispatch v env).
Proof.
  destruct v; unfold_nodes; unfold InterleaveInferencer, seed_preamble, invoke;
    ensures_walk; cbn;
    (split; [ repeat constructor; threaded_cases
            | split; [ intros Hnone;
                       first [ discriminate Hnone
                             | eexists; split; [ reflexivity |];
                               split; [ reflexivity | threaded_cases ] ]
                     | intros Hnone;
                       first [ discriminate Hnone
                             | eexists; split; reflexivity ] ] ]).
Qed.

(** The inferencer receives the prompt as [text] and, under their own
    names, the caller's values of the sampling inputs (cfg_text_scale,
    cfg_img_scale, timestep_shift, num_timesteps, cfg_renorm_min), of the
    source image in the editing and understanding variants, of
    max_think_token_n in the two think variants and of cfg_renorm_type in
    Generation.  It does receive them: a run in which no library call raises
    invokes the inferencer, exactly once, with these entries, and a run
    without an invocation is one that a library call made before it ended,
    with that call's exception. *)
Theorem dispatch_threads_inputs :
  forall (v : variant) (env : gmap string value) S (h : handler S) (s : S),
    let t := events (run h (dispatch v env) s) in
    Forall (fun kw : gmap string value =>
              kw !! "text" = Some (arg env "prompt")
              ∧ forall k, k ∈ threaded v -> kw !! k = Some (arg env k))
           (inferencer_kwargs t)
    ∧ (raised t = [] ->
         exists kw : gmap string value,
           inferencer_kwargs t = [kw]
           ∧ kw !! "text" = Some (arg env "prompt")
           ∧ forall k, k ∈ threaded v -> kw !! k = Some (arg env k))
    ∧ (inferencer_kwargs t = [] ->
         exists e, raised t = [e]
                   ∧ result (run h (dispatch v env) s) = inl e).
Proof.
  intros v env S h s.
  exact (run_ensures _ _ (dispatch_ensures_threaded v env) S h s).
Qed.

Lemma dispatch_threads_inputs_witness :
  exists kw : gmap string value,
    inferencer_kwargs
      (events (run (lib_sem lcg_library cpu_machine)
                   (dispatch ThinkEditing sample_env) fresh_world)) = [kw]
    ∧ kw !! "text" = Some (VStr "a car made of small cars")
    ∧ kw !! "num_timesteps" = Some (VInt 50).
Proof.
  assert ("num_timesteps" ∈ threaded ThinkEditing) as Hin
    by (apply (bool_decide_unpack _); vm_compute; exact I).
  assert (raised (events (run (lib_sem lcg_library cpu_machine)
                              (dispatch ThinkEditing sample_env) fresh_world))
          = []) as Hquiet by (vm_compute; reflexivity).
  destruct (proj1 (proj2 (dispatch_threads_inputs ThinkEditing sample_env _
                            (lib_sem lcg_library cpu_machine) fresh_world))
              Hquiet) as (kw & Hkw & Htext & Hthreaded).
  exists kw. split; [exact Hkw |]. split; [exact Htext |].
  exact (Hthreaded "num_timesteps" Hin).
Defined.

Lemma dispatch_ensures_keys (v : variant) (env : gmap string value) :
  ensures (fun t _ =>
     Forall (fun kw : gmap string value =>
               dom kw = list_to_set (passed_keys v)
               ∧ (is_Some (kw !! "do_sample") ->
                  kw !! "do_sample" = Some (VBool false)))
            (inferencer_kwargs t))
    (dispatch v env).
Proof.
  destruct v; unfold_nodes; unfold InterleaveInferencer, seed_preamble, invoke;
    ensures_walk; cbn [inferencer_kwargs omap]; cbn -[dom list_to_set];
    repeat constructor.
  all: try (intros _; reflexivity).
  all: try (intros [? [=]]; fail).
  all: vm_compute; reflexivity.
Qed.

(** The keyword dictionary of an inferencer invocation has exactly the keys
    of its variant: in particular no variant ever passes text_temperature,
    image_ratio or the seed, the Understanding variant passes no guidance
    setting at all, and wherever do_sample is passed it is False. *)
Theorem dispatch_passes_exactly_its_keys :
  forall (v : variant) (env : gmap string value) S (h : handler S) (s : S),
    Forall (fun kw : gmap string value =>
              (forall k, is_Some (kw !! k) <-> k ∈ passed_keys v)
              ∧ (is_Some (kw !! "do_sample") ->
                 kw !! "do_sample" = Some (VBool false)))
           (inferencer_kwargs (events (run h (dispatch v env) s))).
Proof.
  intros v env S h s.
  eapply Forall_impl.
  - exact (run_ensures _ _ (dispatch_ensures_keys v env) S h s).
  - intros kw [Hdom Hsample]. split; [| exact Hsample].
    intros k. rewrite <- elem_of_dom, Hdom. apply elem_of_list_to_set.
Qed.

Lemma dispatch_passes_exactly_its_keys_witness :
  Forall (fun kw : gmap string value => kw !! "text_temperature" = None)
    (inferencer_kwargs
       (events (run (lib_sem lcg_library cpu_machine)
                    (dispatch ThinkGeneration sample_env) fresh_world))).
Proof.
  eapply Forall_impl.
  - exact (dispatch_passes_exactly_its_keys ThinkGeneration sample_env _
             (lib_sem lcg_library cpu_machine) fresh_world).
  - intros kw [Hkeys _].
    destruct (kw !! "text_temperature") as [x |] eqn:E; [| reflexivity].
    exfalso.
    assert ("text_temperature" ∉ passed_keys ThinkGeneration) as Hout
      by solve_not_in.
    apply Hout, Hkeys. rewrite E. by eexists.
Defined.

(** ** Inputs a dispatch function never reads *)

(** A dispatch call is the same program for any two sets of inputs that
    agree on everything but the parameters its function never reads:
    image_ratio, cfg_interval and text_temperature in Generation;
    cfg_interval, cfg_renorm_type and text_temperature in Think-Generation;
    max_think_token_n in Understanding.  The two editing functions read
    every parameter they take. *)
Theorem dispatch_ignores_unread_inputs :
  forall (v : variant) (env1 env2 : gmap string value),
    (forall k, k ∉ ignored v -> env1 !! k = env2 !! k) ->
    dispatch v env1 = dispatch v env2.
Proof.
  intros v env1 env2 H.
  assert (forall k, k ∉ ignored v -> arg env1 k = arg env2 k) as Ha
    by (intros k Hk; unfold arg; by rewrite (H k Hk)).
  destruct v;
    unfold dispatch, node_of, function_body, ImageGeneration_class,
      ImageThinkGeneration_class, ImageEditing_class, ImageThinkEditing_class,
      ImageUnderstanding_class, ImageGeneration.generate,
      ImageThinkGeneration.generate, ImageEditing.editing,
      ImageThinkEditing.editing, ImageUnderstanding.understanding;
    rewrite !Ha by solve_not_in; reflexivity.
Qed.

Lemma dispatch_ignores_unread_inputs_witness :
  dispatch ThinkGeneration
    (<["cfg_renorm_type" := VStr "local"]>
       (<["cfg_interval" := VFloat 0.9]> sample_env))
  = dispatch ThinkGeneration sample_env.
Proof.
  apply dispatch_ignores_unread_inputs.
  intros k Hk.
  assert (k ≠ "cfg_renorm_type" ∧ k ≠ "cfg_interval") as [H1 H2].
  { split; intros ->; apply Hk; apply (bool_decide_unpack _); vm_compute; exact I. }
  by rewrite !lookup_insert_ne.
Defined.

(** ** What a dispatch call returns *)

Lemma dispatch_ensures_tuple (v : variant) (env : gmap string value) :
  ensures (fun t res =>
     forall b, res = inr b ->
       exists d vals,
         inferencer_results t = [d]
         ∧ mapM (fun k => d !! k) (extracted_keys v) = Some vals
         ∧ b = VTuple vals
         ∧ length vals = length (return_types (node_of v)))
    (dispatch v env).
Proof.
  destruct v; unfold_nodes; unfold InterleaveInferencer, seed_preamble, invoke;
    ensures_walk; cbv beta; intros b' Hb; try discriminate Hb;
    injection Hb as <-; do 2 eexists;
    (split; [reflexivity |]); cbn;
    repeat match goal with E : _ !! _ = Some _ |- _ => rewrite E; clear E end;
    repeat split; reflexivity.
Qed.

(** A dispatch call that returns returns a tuple with one element per
    declared output type, in the declared order: the entries of the
    inferencer's answer under 'image' and 'text' as the variant's outputs
    name them, unchanged. *)
Theorem dispatch_returns_declared_tuple :
  forall (v : variant) (env : gmap string value) S (h : handler S) (s : S)
         (b : value),
    result (run h (dispatch v env) s) = inr b ->
    exists d vals,
      inferencer_results (events (run h (dispatch v env) s)) = [d]
      ∧ mapM (fun k => d !! k) (extracted_keys v) = Some vals
      ∧ b = VTuple vals
      ∧ length vals = length (return_types (node_of v)).
Proof.
  intros v env S h s.
  exact (run_ensures _ _ (dispatch_ensures_tuple v env) S h s).
Qed.

Lemma dispatch_returns_declared_tuple_witness :
  exists d vals,
    inferencer_results
      (events (run (lib_sem lcg_library cpu_machine)
                   (dispatch ThinkEditing sample_env) fresh_world)) = [d]
    ∧ mapM (fun k => d !! k) (extracted_keys ThinkEditing) = Some vals
    ∧ VTuple [VTuple [VInt 12345; VInt 12345; VInt 12345];
              VStr "a car made of small cars"] = VTuple vals
    ∧ length vals = length (return_types (node_of ThinkEditing)).
Proof.
  apply (dispatch_returns_declared_tuple ThinkEditing sample_env _
           (lib_sem lcg_library cpu_machine) fresh_world).
  vm_compute. reflexivity.
Defined.

(** ** How a dispatch call fails *)

Lemma dispatch_ensures_failure (v : variant) (env : gmap string value) :
  ensures (fun t res =>
     (length (raised t) ≤ 1)%nat
     ∧ (forall e, e ∈ raised t ->
          res = inl e ∧ snd <$> last t = Some (inl e))
     ∧ (forall e, res = inl e -> raised t = [] ->
          exists out, method_answers "__call__" t = [out]
            ∧ ((exists d k, out = VDict d ∧ k ∈ extracted_keys v
                            ∧ d !! k = None ∧ e = KeyError k)
               ∨ ((forall d, out ≠ VDict d) ∧ exists msg, e = TypeError msg))))
    (dispatch v env).
Proof.
  destruct v; unfold_nodes; unfold InterleaveInferencer, seed_preamble, invoke;
    ensures_walk.
  all: cbv beta; split; [| split].
  (* at most one library call raised *)
  all: try (lazymatch goal with |- (_ ≤ _)%nat => vm_compute; repeat constructor end).
  (* a raise is the result, and the last thing that happened *)
  all: try (intros err Herr; vm_compute in Herr;
            first [ by apply elem_of_nil in Herr
                  | apply list_elem_of_singleton in Herr as ->;
                    split; vm_compute; reflexivity ]).
  (* a failure without a raise is a failed subscript *)
  all: try (intros ? [=]; fail).
  all: try (intros ? _ Hr; vm_compute in Hr; discriminate Hr).
  all: intros ? [= <-] _; eexists; (split; [reflexivity |]);
    first [ left; do 2 eexists; (split; [reflexivity |]);
            split; [| split; [eassumption | reflexivity]];
            repeat constructor
          | right; split; [intros ?; discriminate | eexists; reflexivity] ].
Qed.

(** Nothing is caught or translated in a dispatch call.  At most one library
    call raises; its exception is the result of the dispatch, unchanged, and
    no library is called after it.  The only other way to fail is the
    subscript of the inferencer's answer: KeyError on a key the variant reads
    and the answer lacks, or TypeError when the answer is not a mapping. *)
Theorem dispatch_failure_is_surfaced :
  forall (v : variant) (env : gmap string value) S (h : handler S) (s : S),
    let t := events (run h (dispatch v env) s) in
    let res := result (run h (dispatch v env) s) in
    (length (raised t) ≤ 1)%nat
    ∧ (forall e, e ∈ raised t ->
         res = inl e ∧ snd <$> last t = Some (inl e))
    ∧ (forall e, res = inl e -> raised t = [] ->
         exists out, method_answers "__call__" t = [out]
           ∧ ((exists d k, out = VDict d ∧ k ∈ extracted_keys v
                           ∧ d !! k = None ∧ e = KeyError k)
              ∨ ((forall d, out ≠ VDict d) ∧ exists msg, e = TypeError msg))).
Proof.
  intros v env S h s.
  exact (run_ensures _ _ (dispatch_ensures_failure v env) S h s).
Qed.

Lemma dispatch_failure_is_surfaced_witness :
  result (run (lib_sem lcg_library cpu_machine)
              (dispatch Generation (<["seed" := VStr "forty-two"]> sample_env))
              fresh_world)
  = inl (TypeError "seed must be an integer").
Proof.
  apply (proj1 (proj2 (dispatch_failure_is_surfaced Generation
           (<["seed" := VStr "forty-two"]> sample_env) _
           (lib_sem lcg_library cpu_machine) fresh_world))
           (TypeError "seed must be an integer")).
  vm_compute. apply list_elem_of_here.
Defined.

(** ** A seeding that raises part-way *)

Section PartialReseed.
Context {gen : Type} (L : library gen) (m : machine).

Lemma seed_preamble_np_raises (seed : value) (w : world gen) (g : gen) (e : exn) :
  random_seed L seed = inr g ->
  np_random_seed L seed = inl e ->
  run (lib_sem L m) (seed_preamble seed) w
  = Outcome (inl e)
      (World g (np_random w) (torch_cpu w) (torch_cuda w)
             (cudnn_deterministic w) (cudnn_benchmark w))
      [(ECall "random.seed" [seed] ∅, inr VNone);
       (ECall "np.random.seed" [seed] ∅, inl e)].
Proof.
  intros Hpy Hnp. destruct w as [py np cpu cuda det bench].
  unfold seed_preamble, call, assign, perform, mbind, prog_bind.
  cbn. rewrite Hpy. cbn. rewrite Hnp. reflexivity.
Qed.

Lemma dispatch_starts_with_construction (v : variant) (env : gmap string value) :
  exists (made_with : gmap string value) (rest : value -> prog value),
    forall w, run (lib_sem L m) (dispatch v env) w
              = logged (ECall "InterleaveInferencer" [] made_with,
                        inr (VObject "InterleaveInferencer" made_with))
                  (run (lib_sem L m)
                       (bind (seed_preamble (arg env "seed")) rest) w).
Proof.
  destruct v; unfold_nodes; unfold InterleaveInferencer, call, perform;
    cbn [bind]; eexists; eexists; intros w;
    rewrite run_Vis, lib_sem_new_inferencer; cbn [fst snd bind]; reflexivity.
Qed.

(** When numpy rejects the seed after random accepted it, the dispatch call
    raises numpy's error and never invokes the inferencer, but the reseeding
    already done is not undone: the general-purpose generator is left
    reseeded while the numpy and torch generators and the cudnn flags are as
    before the call. *)
Theorem rejected_seed_leaves_partial_reseed :
  forall (v : variant) (env : gmap string value) (w : world gen)
         (g : gen) (e : exn),
    random_seed L (arg env "seed") = inr g ->
    np_random_seed L (arg env "seed") = inl e ->
    let o := run (lib_sem L m) (dispatch v env) w in
    result o = inl e
    ∧ inferencer_kwargs (events o) = []
    ∧ final o = World g (np_random w) (torch_cpu w) (torch_cuda w)
                      (cudnn_deterministic w) (cudnn_benchmark w).
Proof.
  intros v env w g e Hpy Hnp.
  destruct (dispatch_starts_with_construction v env) as (made_with & rest & Hrun).
  cbv zeta. rewrite Hrun, run_bind, (seed_preamble_np_raises _ w g e Hpy Hnp).
  repeat split.
Qed.
End PartialReseed.

Lemma rejected_seed_leaves_partial_reseed_witness :
  final (run (lib_sem numpy_checks_library cpu_machine)
             (dispatch Understanding (<["seed" := VStr "forty-two"]> sample_env))
             fresh_world)
  = World 7 2 3 [] VNone VNone.
Proof.
  assert (random_seed numpy_checks_library
            (arg (<["seed" := VStr "forty-two"]> sample_env) "seed") = inr 7)
    as Hpy by (vm_compute; reflexivity).
  assert (np_random_seed numpy_checks_library
            (arg (<["seed" := VStr "forty-two"]> sample_env) "seed")
          = inl (TypeError "seed must be an integer"))
    as Hnp by (vm_compute; reflexivity).
  exact (proj2 (proj2 (rejected_seed_leaves_partial_reseed
           numpy_checks_library cpu_machine
           Understanding (<["seed" := VStr "forty-two"]> sample_env)
           fresh_world 7 (TypeError "seed must be an integer") Hpy Hnp))).
Defined.

(** ** More on the device-map pass *)

Section ColocateOutside.
Context (first_device : value).

Lemma foldl_insert_outside (names : list string)
  (step : gmap string value -> string -> gmap string value) :
  (forall dm a k, k ≠ a -> step dm a !! k = dm !! k) ->
  forall (dm : gmap string value) (k : string),
    k ∉ names -> foldl step dm names !! k = dm !! k.
Proof.
  intros Hstep. induction names as [| a names IH]; intros dm k Hk; cbn [foldl].
  - reflexivity.
  - apply not_elem_of_cons in Hk as [Hne Hk].
    rewrite IH by exact Hk. by apply Hstep.
Qed.
End ColocateOutside.

Lemma colocate_outside (n : value) (plan : gmap string value) (k : string) :
  k ∉ LoadBAGELModel.same_device_modules ->
  LoadBAGELModel.colocate n plan !! k = plan !! k.
Proof.
  intros Hk. unfold LoadBAGELModel.colocate. destruct (eq_one n);
    apply foldl_insert_outside; try exact Hk;
    intros dm a k' Hne; destruct (decide (is_Some (dm !! a)));
    try reflexivity; by rewrite lookup_insert_ne.
Qed.

(** The pass leaves every assignment outside the group as the placement
    plan made it, and the set of assigned names changes only by the group:
    with one device the whole group is added, otherwise nothing is. *)
Theorem colocate_touches_only_the_group :
  forall (n : value) (plan : gmap string value),
    (forall k, k ∉ LoadBAGELModel.same_device_modules ->
       LoadBAGELModel.colocate n plan !! k = plan !! k)
    ∧ dom (LoadBAGELModel.colocate n plan)
      = dom plan ∪ (if eq_one n
                    then list_to_set LoadBAGELModel.same_device_modules
                    else ∅).
Proof.
  intros n plan. split; [intros k; apply colocate_outside |].
  apply set_eq. intros k. rewrite elem_of_union, !elem_of_dom.
  destruct (decide (k ∈ LoadBAGELModel.same_device_modules)) as [Hin | Hout].
  - rewrite (colocate_lookup n plan k Hin).
    destruct (plan !! k) as [d |] eqn:E.
    + split; intros _; [left |]; by eexists.
    + destruct (eq_one n).
      * split; intros _; [right; by apply elem_of_list_to_set | by eexists].
      * split; [by intros [? [=]] |].
        intros [[? [=]] | H]. by apply elem_of_empty in H.
  - rewrite (colocate_outside n plan k Hout). split; [by left |].
    intros [H | H]; [exact H |]. exfalso.
    destruct (eq_one n); [by apply elem_of_list_to_set in H
                         | by apply elem_of_empty in H].
Qed.

Lemma colocate_touches_only_the_group_witness :
  LoadBAGELModel.colocate (VInt 1)
    {[ "language_model.model.layers.0" := VInt 0; "connector" := VStr "cpu" ]}
    !! "language_model.model.layers.0"
  = Some (VInt 0).
Proof.
  rewrite (proj1 (colocate_touches_only_the_group (VInt 1)
            {[ "language_model.model.layers.0" := VInt 0;
               "connector" := VStr "cpu" ]})
            "language_model.model.layers.0").
  - vm_compute. reflexivity.
  - apply (bool_decide_unpack _). vm_compute. exact I.
Defined.

(** With exactly one device, the pass assigns every name of the group; and
    when the plan had not assigned the first name (as when it placed the
    whole model under one parent entry) all seven end on "cuda:0". *)
Theorem colocate_single_device :
  forall (n : value) (plan : gmap string value),
    eq_one n = true ->
    (forall k, k ∈ LoadBAGELModel.same_device_modules ->
       is_Some (LoadBAGELModel.colocate n plan !! k))
    ∧ (plan !! LoadBAGELModel.first_module = None ->
       forall k, k ∈ LoadBAGELModel.same_device_modules ->
         LoadBAGELModel.colocate n plan !! k = Some (VStr "cuda:0")).
Proof.
  intros n plan Hone. split.
  - intros k Hk. rewrite (colocate_lookup n plan k Hk), Hone.
    destruct (plan !! k); by eexists.
  - intros Hfirst k Hk. rewrite (colocate_lookup n plan k Hk), Hone.
    rewrite Hfirst. by destruct (plan !! k).
Qed.

Lemma colocate_single_device_witness :
  LoadBAGELModel.colocate (VInt 1) {[ "" := VInt 0 ]} !! "vit_pos_embed"
  = Some (VStr "cuda:0").
Proof.
  apply (proj2 (colocate_single_device (VInt 1) {[ "" := VInt 0 ]} eq_refl)).
  - vm_compute. reflexivity.
  - apply (bool_decide_unpack _). vm_compute. exact I.
Defined.

(** With any other device count the pass is idempotent: a second pass over
    its own result changes nothing. *)
Theorem colocate_idempotent_on_several_devices :
  forall (n : value) (plan : gmap string value),
    eq_one n = false ->
    LoadBAGELModel.colocate n (LoadBAGELModel.colocate n plan)
    = LoadBAGELModel.colocate n plan.
Proof.
  intros n plan Hn. apply map_eq. intros k.
  assert (LoadBAGELModel.first_module ∈ LoadBAGELModel.same_device_modules)
    as Hfirst by apply list_elem_of_here.
  destruct (decide (k ∈ LoadBAGELModel.same_device_modules)) as [Hin | Hout].
  - rewrite (colocate_lookup n _ k Hin), (colocate_lookup n plan k Hin), Hn.
    destruct (plan !! k) as [d |] eqn:E; [| reflexivity].
    f_equal. rewrite (colocate_lookup n plan _ Hfirst), Hn.
    by destruct (plan !! LoadBAGELModel.first_module).
  - by rewrite !colocate_outside.
Qed.

Lemma colocate_idempotent_on_several_devices_witness :
  LoadBAGELModel.colocate (VInt 2)
    (LoadBAGELModel.colocate (VInt 2)
       {[ "language_model.model.embed_tokens" := VInt 1; "llm2vae" := VInt 0 ]})
  = LoadBAGELModel.colocate (VInt 2)
      {[ "language_model.model.embed_tokens" := VInt 1; "llm2vae" := VInt 0 ]}.
Proof. apply colocate_idempotent_on_several_devices. reflexivity. Defined.

(** With a device count other than one, line 120 reads the first name's
    device with no default, where line 113 of the one-device branch defaults
    to "cuda:0": when the plan does not assign the first name, the pass
    overwrites every name of the group that the plan did assign with None. *)
Theorem colocate_without_first_name_writes_None :
  forall (n : value) (plan : gmap string value),
    eq_one n = false ->
    plan !! LoadBAGELModel.first_module = None ->
    forall k, k ∈ LoadBAGELModel.same_device_modules ->
      is_Some (plan !! k) ->
      LoadBAGELModel.colocate n plan !! k = Some VNone.
Proof.
  intros n plan Hn Hfirst k Hk [d Hd].
  by rewrite (colocate_lookup n plan k Hk), Hd, Hn, Hfirst.
Qed.

Lemma colocate_without_first_name_writes_None_witness :
  LoadBAGELModel.colocate (VInt 2)
    {[ "time_embedder" := VInt 0; "language_model" := VInt 1 ]}
    !! "time_embedder"
  = Some VNone.
Proof.
  apply (colocate_without_first_name_writes_None (VInt 2)
           {[ "time_embedder" := VInt 0; "language_model" := VInt 1 ]}).
  - reflexivity.
  - vm_compute. reflexivity.
  - apply (bool_decide_unpack _). vm_compute. exact I.
  - vm_compute. by eexists.
Defined.

(** With one device a second pass can still move names: it is the first
    pass that puts the names the plan left out on "cuda:0", and the second
    that brings them to the first name's device. *)
Lemma colocate_not_idempotent_on_one_device :
  LoadBAGELModel.colocate (VInt 1)
    (LoadBAGELModel.colocate (VInt 1)
       {[ "language_model.model.embed_tokens" := VStr "cpu" ]})
  ≠ LoadBAGELModel.colocate (VInt 1)
      {[ "language_model.model.embed_tokens" := VStr "cpu" ]}.
Proof.
  intros H. apply (f_equal (fun dm => dm !! "connector")) in H.
  vm_compute in H. discriminate H.
Qed.

(** ** The memory budget *)

(** For a device count [z] the budget handed to the placement planner gives
    the ceiling to each device index 0, ..., z-1 and to nothing else; a
    count of zero or less gives the empty budget. *)
Theorem max_memory_covers_each_device :
  forall (z : Z) (ceiling : value),
    exists budget : gmap Z value,
      LoadBAGELModel.max_memory (VInt z) ceiling = Ret (VIntDict budget)
      ∧ forall i : Z,
          budget !! i = if decide (0 <= i < z) then Some ceiling else None.
Proof.
  intros z ceiling. eexists. split; [reflexivity |].
  intros i. destruct (decide (0 <= i < z)) as [Hi | Hi].
  - apply elem_of_list_to_map.
    + rewrite <- list_fmap_compose.
      apply NoDup_fmap; [intros x y Hxy; cbn in Hxy; lia | apply NoDup_seq].
    + apply list_elem_of_fmap. exists (Z.to_nat i).
      split; [f_equal; lia | apply elem_of_seq; lia].
  - apply not_elem_of_list_to_map. rewrite <- list_fmap_compose.
    intros (j & Hj & Hin)%list_elem_of_fmap. cbn in Hj.
    apply elem_of_seq in Hin. lia.
Qed.

(** ** The loader's context, configuration and placement *)

(** As [ensures_walk_eq], keeping what the arithmetic and the budget gave. *)
Ltac ensures_step_keep :=
  lazymatch goal with
  | |- ensures _ (minus_one ?v) =>
      let H := fresh "Hminus" in
      destruct (minus_one_cases v) as [(? & H) | (? & H)]; rewrite H;
      cbv beta iota
  | |- ensures _ (LoadBAGELModel.max_memory ?n ?b) =>
      let H := fresh "Hbudget" in
      destruct (max_memory_cases n b) as [(? & H) | (? & H)]; rewrite H;
      cbv beta iota
  | _ => ensures_step_eq
  end.

Ltac ensures_walk_keep :=
  lazymatch goal with
  | |- ensures ?P _ =>
      let Φ := fresh "Φ" in set (Φ := P); repeat ensures_step_keep; subst Φ
  end.

(** Name the device map a leaf holds, so that computing leaves it alone. *)
Ltac name_device_map :=
  repeat match goal with
         | |- context [LoadBAGELModel.colocate ?n ?dm] =>
             let c := fresh "placed" in
             let Hc := fresh "Hplaced" in
             remember (LoadBAGELModel.colocate n dm) as c eqn:Hc
         end.

Lemma load_model_ensures_context (model_path : value) :
  ensures (fun t _ =>
     context_state false t = false
     ∧ Forall (fun x : string * bool =>
                 (x.1 ∈ built_inside -> x.2 = true)
                 ∧ (x.1 ∈ done_outside -> x.2 = false))
              (context_marks false t))
    (LoadBAGELModel.load_model model_path).
Proof.
  unfold_loader; unfold with_, call, method, getattr, setattr, print, perform.
  ensures_walk.
  all: cbv beta; name_device_map; split;
    [ vm_compute; reflexivity
    | apply (bool_decide_unpack _); vm_compute; exact I ].
Qed.

(** Whatever the libraries answer, the loader never leaves the empty-weights
    context open: once entered it is exited on every way out, an exception
    inside it included.  The language model, the vision model, the Bagel
    model and the patch-embedding conversion are only ever made inside it;
    the configuration and autoencoder reads, the tokenizer, the placement
    plan, the checkpoint dispatch and the switch to inference mode only
    outside. *)
Theorem load_model_context_discipline :
  forall (model_path : value) S (h : handler S) (s : S),
    let t := events (run h (LoadBAGELModel.load_model model_path) s) in
    context_state false t = false
    ∧ Forall (fun x : string * bool =>
                (x.1 ∈ built_inside -> x.2 = true)
                ∧ (x.1 ∈ done_outside -> x.2 = false))
             (context_marks false t).
Proof.
  intros model_path S h s.
  exact (run_ensures _ _ (load_model_ensures_context model_path) S h s).
Qed.

(** The Bagel constructor failing inside the context: the exit still runs,
    and nothing after it. *)
Lemma load_model_exits_context_example :
  let o := run (failing_constructor_sem "Bagel")
               (LoadBAGELModel.load_model (VStr "./BAGEL-7B-MoT")) tt in
  result o = inl (RuntimeError "Bagel")
  ∧ last (call_names (events o)) = Some context_exit.
Proof. split; vm_compute; reflexivity. Qed.

(** Compute what a run was observed to do, leaving the values alone. *)
Ltac observe_in H :=
  cbn [kwargs_of answers_of args_of method_answers attr_writes attr_reads
       omap list_omap app fst snd head String.eqb Ascii.eqb Bool.eqb
       String.append] in H.

Ltac observe :=
  cbn [kwargs_of answers_of args_of method_answers attr_writes attr_reads
       omap list_omap app fst snd head String.eqb Ascii.eqb Bool.eqb
       String.append].

(** A run of the loader that returns has built the two models and the
    Bagel configuration, asked for the device count twice, and called the
    placement planner and the checkpoint dispatcher, each once. *)
Lemma load_model_ensures_calls_made (model_path : value) :
  ensures (fun t res =>
     forall out, res = inr out ->
       (exists a1 a2 kw,
          args_of "Qwen2ForCausalLM" t = [a1]
          ∧ args_of "SiglipVisionModel" t = [a2]
          ∧ kwargs_of "BagelConfig" t = [kw])
       ∧ (exists kw1 kw2 plan n1 n2,
            kwargs_of "infer_auto_device_map" t = [kw1]
            ∧ kwargs_of "load_checkpoint_and_dispatch" t = [kw2]
            ∧ answers_of "infer_auto_device_map" t = [VDict plan]
            ∧ answers_of "torch.cuda.device_count" t = [n1; n2]))
    (LoadBAGELModel.load_model model_path).
Proof.
  unfold_loader; unfold with_, call, method, getattr, setattr, print, perform.
  ensures_walk_keep.
  all: cbv beta; intros out Hout;
    first [ discriminate Hout
          | clear Hout; observe; split; repeat eexists ].
Qed.




Lemma load_model_ensures_overrides (model_path : value) :
  ensures (fun t _ =>
     (forall args, args ∈ args_of "Qwen2ForCausalLM" t ->
        exists llm vit n0 n1,
          answers_of "Qwen2Config.from_json_file" t = [llm]
          ∧ answers_of "SiglipVisionConfig.from_json_file" t = [vit]
          ∧ attr_reads "num_hidden_layers" t = [(vit, n0)]
          ∧ minus_one n0 = Ret n1
          ∧ attr_writes t = config_overrides llm vit n1
          ∧ args = [llm])
     ∧ (forall args, args ∈ args_of "SiglipVisionModel" t ->
          exists vit,
            answers_of "SiglipVisionConfig.from_json_file" t = [vit]
            ∧ args = [vit])
     ∧ (forall kw, kw ∈ kwargs_of "BagelConfig" t ->
          exists llm vit ae vae_config,
            answers_of "Qwen2Config.from_json_file" t = [llm]
            ∧ answers_of "SiglipVisionConfig.from_json_file" t = [vit]
            ∧ answers_of "load_ae" t = [ae]
            ∧ component 1 ae = Some vae_config
            ∧ kw !! "llm_config" = Some llm
            ∧ kw !! "vit_config" = Some vit
            ∧ kw !! "vae_config" = Some vae_config))
    (LoadBAGELModel.load_model model_path).
Proof.
  unfold_loader; unfold with_, call, method, getattr, setattr, print, perform.
  ensures_walk_keep.
  all: cbv beta; split; [| split].
  all: intros a Ha; observe_in Ha;
    first [ by apply elem_of_nil in Ha
          | apply list_elem_of_singleton in Ha as ->; observe;
            repeat eexists; first [ reflexivity | eassumption ] ].
Qed.

(** When the loader comes to build the models, the overrides are in place
    and are all there is: exactly five attribute writes have been made, on
    the two configuration objects just read (qk_norm, tie_word_embeddings and
    layer_module on the language-model one; rope and num_hidden_layers on the
    vision one), the layer count written being the one read minus one.  The
    language model is built from that language-model configuration, the
    vision model from that vision configuration, and the Bagel configuration
    is made of both and of the autoencoder's.  A run that returns has built
    each of the three, once. *)
Theorem load_model_overrides_before_building :
  forall (model_path : value) S (h : handler S) (s : S),
    let t := events (run h (LoadBAGELModel.load_model model_path) s) in
    (forall args, args ∈ args_of "Qwen2ForCausalLM" t ->
       exists llm vit n0 n1,
         answers_of "Qwen2Config.from_json_file" t = [llm]
         ∧ answers_of "SiglipVisionConfig.from_json_file" t = [vit]
         ∧ attr_reads "num_hidden_layers" t = [(vit, n0)]
         ∧ minus_one n0 = Ret n1
         ∧ attr_writes t = config_overrides llm vit n1
         ∧ args = [llm])
    ∧ (forall args, args ∈ args_of "SiglipVisionModel" t ->
         exists vit,
           answers_of "SiglipVisionConfig.from_json_file" t = [vit]
           ∧ args = [vit])
    ∧ (forall kw, kw ∈ kwargs_of "BagelConfig" t ->
         exists llm vit ae vae_config,
           answers_of "Qwen2Config.from_json_file" t = [llm]
           ∧ answers_of "SiglipVisionConfig.from_json_file" t = [vit]
           ∧ answers_of "load_ae" t = [ae]
           ∧ component 1 ae = Some vae_config
           ∧ kw !! "llm_config" = Some llm
           ∧ kw !! "vit_config" = Some vit
           ∧ kw !! "vae_config" = Some vae_config)
    ∧ (forall out, result (run h (LoadBAGELModel.load_model model_path) s)
                   = inr out ->
         exists a1 a2 kw,
           args_of "Qwen2ForCausalLM" t = [a1]
           ∧ args_of "SiglipVisionModel" t = [a2]
           ∧ kwargs_of "BagelConfig" t = [kw]).
Proof.
  intros model_path S h s.
  destruct (run_ensures _ _ (load_model_ensures_overrides model_path) S h s)
    as (Hllm & Hvit & Hconfig).
  pose proof (run_ensures _ _ (load_model_ensures_calls_made model_path) S h s)
    as Hmade.
  cbv zeta. split; [exact Hllm |]. split; [exact Hvit |].
  split; [exact Hconfig |].
  intros out Hout. exact (proj1 (Hmade out Hout)).
Qed.

Lemma load_model_overrides_before_building_witness :
  let t := events (run (disk_sem ["./BAGEL-7B-MoT/llm_config.json";
                                  "./BAGEL-7B-MoT/vit_config.json"] 1 ∅)
                       (LoadBAGELModel.load_model (VStr "./BAGEL-7B-MoT")) tt) in
  exists llm vit n0 n1,
    answers_of "Qwen2Config.from_json_file" t = [llm]
    ∧ answers_of "SiglipVisionConfig.from_json_file" t = [vit]
    ∧ attr_reads "num_hidden_layers" t = [(vit, n0)]
    ∧ minus_one n0 = Ret n1
    ∧ attr_writes t = config_overrides llm vit n1
    ∧ [VObject "Qwen2Config.from_json_file" ∅] = [llm].
Proof.
  apply (proj1 (load_model_overrides_before_building (VStr "./BAGEL-7B-MoT") _
           (disk_sem ["./BAGEL-7B-MoT/llm_config.json";
                      "./BAGEL-7B-MoT/vit_config.json"] 1 ∅) tt)
           [VObject "Qwen2Config.from_json_file" ∅]).
  vm_compute. apply list_elem_of_here.
Defined.

(** The layer count of that run: 27 read, 26 written. *)
Lemma load_model_layer_count_example :
  last (attr_writes
          (events (run (disk_sem ["./BAGEL-7B-MoT/llm_config.json";
                                  "./BAGEL-7B-MoT/vit_config.json"] 1 ∅)
                       (LoadBAGELModel.load_model (VStr "./BAGEL-7B-MoT")) tt)))
  = Some (VObject "SiglipVisionConfig.from_json_file" ∅, "num_hidden_layers",
          VInt 26).
Proof. vm_compute. reflexivity. Qed.

(** ** The host's call, where it binds *)

Lemma schema_arg (n : node_class) (widget : string -> value) (k : string) :
  k ∈ input_types n ->
  arg (list_to_map (schema_inputs n widget)) k = widget k.
Proof.
  unfold arg, schema_inputs. induction (input_types n) as [| a names IH];
    intros Hk.
  - by apply elem_of_nil in Hk.
  - cbn [fmap list_fmap list_to_map foldr]. cbn.
    destruct (decide (k = a)) as [-> | Hne].
    + by rewrite lookup_insert_eq.
    + rewrite lookup_insert_ne by done. apply IH.
      apply elem_of_cons in Hk as [? | ?]; done.
Qed.

Ltac solve_in := apply (bool_decide_unpack _); vm_compute; exact I.

Ltac bound_call C widget :=
  unfold execute;
  assert (bind_arguments (function_name C) (function_parameters C)
                         (schema_inputs C widget)
          = inr (list_to_map (schema_inputs C widget))) as ->
    by (vm_compute; reflexivity);
  unfold C; cbn [function_body];
  rewrite !(schema_arg _ widget) by solve_in;
  reflexivity.

(** For the five node classes whose schema-matching call binds, the host's
    keyword call is the call of the function with each parameter bound to
    the schema field of its own name, whatever the order of declaration:
    ImageGeneration declares seed before image_ratio in its schema and
    image_ratio before seed in its function, and each still gets its own
    value. *)
Theorem host_call_binds_by_name :
  forall widget : string -> value,
    execute ImageGeneration_class (schema_inputs ImageGeneration_class widget)
    = ImageGeneration.generate
        (widget "model") (widget "vae_model") (widget "tokenizer")
        (widget "vae_transform") (widget "vit_transform")
        (widget "new_token_ids") (widget "prompt") (widget "image_ratio")
        (widget "seed") (widget "cfg_text_scale") (widget "cfg_img_scale")
        (widget "cfg_interval") (widget "timestep_shift")
        (widget "num_timesteps") (widget "cfg_renorm_min")
        (widget "cfg_renorm_type") (widget "text_temperature")
    ∧ execute ImageUnderstanding_class
        (schema_inputs ImageUnderstanding_class widget)
      = ImageUnderstanding.understanding
          (widget "model") (widget "vae_model") (widget "tokenizer")
          (widget "vae_transform") (widget "vit_transform")
          (widget "new_token_ids") (widget "prompt") (widget "image")
          (widget "seed") (widget "max_think_token_n")
    ∧ execute BagelPrompt_class (schema_inputs BagelPrompt_class widget)
      = BagelPrompt.input_text (widget "text")
    ∧ execute LoadEditImage_class (schema_inputs LoadEditImage_class widget)
      = LoadEditImage.input_image (widget "image_path")
    ∧ execute LoadBAGELModel_class (schema_inputs LoadBAGELModel_class widget)
      = LoadBAGELModel.load_model (widget "model_path").
Proof.
  intros widget. split; [| split; [| split; [| split]]].
  - bound_call ImageGeneration_class widget.
  - bound_call ImageUnderstanding_class widget.
  - bound_call BagelPrompt_class widget.
  - bound_call LoadEditImage_class widget.
  - bound_call LoadBAGELModel_class widget.
Qed.
